(** * Gmail job-application tracker: ingestion, classification gate,
      aggregation and company query

    A shallow embedding of the server code (sync engine, classifier,
    aggregator, scheduled sweep, session tokens, HTML escaping), of the
    stores of cursors and tokens, of the OpenAI transport with its backoff
    ladder and of the company filter, followed by the properties of the
    specification that were checked against it and by further properties
    of the code.

    Conventions of the embedding:
    - JavaScript strings are [string]; [trim], [toLowerCase] and the
      whitespace class [\s] are modelled on their ASCII part.
    - JavaScript numbers that hold timestamps, counters and delays are [Z].
    - [undefined] is [None]; parsed JSON values are [Json], with [JNull]
      for [null].
    - An [async] function that reads or writes a store takes the store and
      returns the new store together with its result; what the outside
      world answers (Gmail, the clock, the OpenAI endpoint) is an explicit
      argument.
    - A read that the code wraps in a [catch] may fail; writes to the
      containers and accesses to the vault are taken to succeed. *)

From Stdlib Require Import ZArith Ascii DecimalString.
From stdpp Require Import base option list strings gmap.

Set Warnings "-register-all".

(* ================================================================== *)
(** * JavaScript strings and values *)
(* ================================================================== *)

Module JS.

(** ** Strings *)

Definition upper_case (c : ascii) : bool :=
  let n := Ascii.N_of_ascii c in (65 <=? n)%N && (n <=? 90)%N.

Definition lower_char (c : ascii) : ascii :=
  if upper_case c then Ascii.ascii_of_N (Ascii.N_of_ascii c + 32) else c.

(** [s.toLowerCase()] *)
Fixpoint toLowerCase (s : string) : string :=
  match s with
  | EmptyString => EmptyString
  | String c r => String (lower_char c) (toLowerCase r)
  end.

Fixpoint trimStart (s : string) : string :=
  match s with
  | EmptyString => EmptyString
  | String c r => if Ascii.is_space c then trimStart r else s
  end.

Definition trimEnd (s : string) : string :=
  String.rev (trimStart (String.rev s)).

(** [s.trim()] *)
Definition trim (s : string) : string := trimEnd (trimStart s).

Fixpoint startsWith (sub s : string) : bool :=
  match sub, s with
  | EmptyString, _ => true
  | String a sub', String b s' => if decide (a = b) then startsWith sub' s' else false
  | String _ _, EmptyString => false
  end.

(** [s.includes(sub)] *)
Fixpoint includes (sub s : string) : bool :=
  startsWith sub s ||
  match s with
  | EmptyString => false
  | String _ s' => includes sub s'
  end.

(** [s.slice(0, n)] *)
Fixpoint slice0 (n : nat) (s : string) : string :=
  match n, s with
  | S n', String c r => String c (slice0 n' r)
  | _, _ => EmptyString
  end.
Global Arguments slice0 : simpl never.

(** [s.replace(/\s+/g, '_')]: every maximal run of whitespace becomes one
    underscore. *)
Fixpoint collapse_spaces (in_run : bool) (s : string) : string :=
  match s with
  | EmptyString => EmptyString
  | String c r =>
      if Ascii.is_space c
      then (if in_run then collapse_spaces true r
            else String "_" (collapse_spaces true r))
      else String c (collapse_spaces false r)
  end.

Definition replace_spaces (s : string) : string := collapse_spaces false s.

(** [!s] for a string *)
Definition blank (s : string) : bool := bool_decide (s = "").

(** [s || d] for strings *)
Definition or_str (s d : string) : string := if blank s then d else s.

(** ** Parsed JSON values *)

(** Numbers are integers here: the code only looks at their type, at
    whether they are zero and at whether they equal 429. *)

Inductive Json : Type :=
| JNull
| JBool (b : bool)
| JNum (n : Z)
| JStr (s : string)
| JArr (items : list Json)
| JObj (fields : list (string * Json)).

(** Truthiness: [null], [false], [0] and [''] are falsy. *)
Definition truthy (v : Json) : bool :=
  match v with
  | JNull => false
  | JBool b => b
  | JNum n => negb (n =? 0)%Z
  | JStr s => negb (blank s)
  | JArr _ | JObj _ => true
  end.

(** Truthiness of a value that may be [undefined]. *)
Definition truthy_opt (v : option Json) : bool :=
  match v with Some x => truthy x | None => false end.

Fixpoint assoc (k : string) (fields : list (string * Json)) : option Json :=
  match fields with
  | [] => None
  | (k', v) :: rest => if decide (k' = k) then Some v else assoc k rest
  end.

(** [v.k] on a value that is neither [null] nor [undefined]: own
    properties of objects; nothing else carries the names used here. *)
Definition prop (k : string) (v : Json) : option Json :=
  match v with
  | JObj fields => assoc k fields
  | _ => None
  end.

(** [v?.k] *)
Definition opt_prop (k : string) (v : option Json) : option Json :=
  match v with
  | None | Some JNull => None
  | Some x => prop k x
  end.

(** [v?.[0]] *)
Definition opt_first (v : option Json) : option Json :=
  match v with
  | Some (JArr (x :: _)) => Some x
  | Some (JObj fields) => assoc "0" fields
  | Some (JStr (String c _)) => Some (JStr (String c EmptyString))
  | _ => None
  end.

(** [v === s] for a string literal [s] *)
Definition is_string (s : string) (v : option Json) : bool :=
  match v with
  | Some (JStr t) => bool_decide (t = s)
  | _ => false
  end.

(** [v === n] for a number literal [n] *)
Definition strict_eq_num (v : option Json) (n : Z) : bool :=
  match v with
  | Some (JNum m) => (m =? n)%Z
  | _ => false
  end.

(** What the runtime library does and the code only calls. *)
Class Runtime := {
  (** [JSON.parse]: [None] when it throws a SyntaxError *)
  JSON_parse : string -> option Json;
  (** the conversion [String(v)] of a value that is not a string *)
  ToString : Json -> string;
  (** base64 decoding of a body ([Buffer.from(_, 'base64').toString]) *)
  base64_decode : string -> string;
  (** [htmlToText(_, { wordwrap: 100 })] of the html-to-text package *)
  htmlToText : string -> string
}.

(** [String(v)] *)
Definition to_string `{Runtime} (v : Json) : string :=
  match v with JStr s => s | _ => ToString v end.

End JS.

Import JS.

(* ================================================================== *)
(** * Header lookup of the sync engine *)
(* ================================================================== *)

Module Headers.

(** A header of a Gmail message payload; both fields may be missing. *)
Record Header := { name : option string; value : option string }.

(** [headers.find((h) => h.name === name)], then [header.value || '']. *)
Definition extractHeader (headers : list Header) (n : string) : string :=
  match List.find (fun h => bool_decide (name h = Some n)) headers with
  | Some header => from_option id "" (value header)
  | None => ""
  end.

End Headers.

Import Headers.

(* ================================================================== *)
(** * Stored documents *)
(* ================================================================== *)

(** A stored Gmail message. The classification is whatever the classifier
    returned for it: parsed JSON, not checked against any schema. *)
Module Email.

Record GmailEmailDoc := {
  id : string;
  owner : string;
  from : string;
  to : string;
  subject : string;
  date : string;
  snippet : string;
  body : string;
  labelIds : list string;
  fetchedAt : string;
  internalDate : Z;
  classification : option Json;
  classifiedAt : option string;
  createdAt : option string
}.

End Email.

Abbreviation GmailEmailDoc := Email.GmailEmailDoc.

(* ================================================================== *)
(** * Company query (companyFilter.ts) *)
(* ================================================================== *)

Module CompanyFilter.

(** [(name || '').trim().toLowerCase()] *)
Definition normalizeCompany (name : string) : string :=
  toLowerCase (trim (or_str name "")).

(** The callback handed to [emails.filter]. *)
Definition keeps (target : string) (email : GmailEmailDoc) : bool :=
  let company := opt_prop "company_name" (Email.classification email) in
  let isJob := opt_prop "is_job_related" (Email.classification email) in
  let status := opt_prop "status" (Email.classification email) in
  match company with
  | Some (JStr c) =>
      match isJob with
      | Some (JBool true) =>
          if is_string "not_job_related" status then false
          else bool_decide (normalizeCompany c = target)
      | _ => false
      end
  | _ => false
  end.

Definition filterEmailsByCompany
    (emails : list GmailEmailDoc) (companyName : string) : list GmailEmailDoc :=
  let target := normalizeCompany companyName in
  if blank target then [] else List.filter (keeps target) emails.

(** The match of section 4.4 of the specification, in its words: a
    classification is present, [is_job_related == true],
    [status != not_job_related], and the trimmed company names are equal
    up to letter case. *)
Definition spec_match (companyName : string) (email : GmailEmailDoc) : Prop :=
  exists c company,
    Email.classification email = Some c /\
    prop "is_job_related" c = Some (JBool true) /\
    prop "status" c <> Some (JStr "not_job_related") /\
    prop "company_name" c = Some (JStr company) /\
    toLowerCase (trim company) = toLowerCase (trim companyName).

End CompanyFilter.

(* ================================================================== *)
(** * What the OpenAI endpoint answers *)
(* ================================================================== *)

Module Fetch.

(** One [fetch] of the chat-completion endpoint followed by
    [response.json()], as the caller observes it. HTTP status codes are
    positive numbers. *)
Inductive FetchOutcome : Type :=
| FetchRejects (message : string)                   (* transport error *)
| BodyRejects (status : positive) (message : string) (* body is not JSON *)
| Responds (status : positive) (data : Json).

(** [response.ok] *)
Definition ok (status : positive) : bool :=
  (200 <=? status)%positive && (status <=? 299)%positive.

(** [data.choices?.[0]?.message?.content]; the outer [None] is the
    TypeError of reading [choices] of [null]. *)
Definition first_choice_content (data : Json) : option (option Json) :=
  match data with
  | JNull => None
  | _ => Some (opt_prop "content" (opt_prop "message" (opt_first (prop "choices" data))))
  end.

End Fetch.

Import Fetch.

(* ================================================================== *)
(** * Classifier transport with its backoff ladder (callChat) *)
(* ================================================================== *)

Module OpenAIClient.

Record ModelPolicy := { backoffMs : list Z }.

Definition defaultPolicy : ModelPolicy := {| backoffMs := [500; 1000; 2000]%Z |}.

(** Per-model backoff plans; [None] for a model without an entry. *)
Definition modelPolicies (model : string) : option ModelPolicy :=
  if decide (model = "gpt-4o-mini") then Some {| backoffMs := [400; 800; 1600; 3200]%Z |}
  else if decide (model = "gpt-5-mini") then Some {| backoffMs := [400; 800; 1600; 3200]%Z |}
  else if decide (model = "gpt-5-nano") then Some {| backoffMs := [300; 600; 1200; 2400]%Z |}
  else None.

(** The error objects that reach the [catch] of [callChat]: [status] is
    set on the error built from a response, and errors raised by [fetch]
    or [response.json()] carry neither [status] nor [code]. *)
Record ChatError := {
  message : string;
  status : option positive;
  code : option Json
}.

(** What one attempt produces: the parsed body, or the error thrown inside
    the [try]. *)
Definition attempt `{Runtime} (answer : FetchOutcome) : Json + ChatError :=
  match answer with
  | FetchRejects m => inr {| message := m; status := None; code := None |}
  | BodyRejects _ m => inr {| message := m; status := None; code := None |}
  | Responds st data =>
      if ok st then inl data
      else
        let error := opt_prop "error" (Some data) in
        let errorMessage :=
          match opt_prop "message" error with
          | Some v => if truthy v then to_string v else "OpenAI request failed"
          | None => "OpenAI request failed"
          end in
        inr {| message := errorMessage; status := Some st;
               code := opt_prop "code" error |}
  end.

Definition isRateLimit (err : ChatError) : bool :=
  let st := match status err with
            | Some n => Some (JNum (Z.pos n))
            | None => code err
            end in                              (* err?.status || err?.code *)
  if strict_eq_num st 429 then true
  else includes "rate limit" (toLowerCase (or_str (message err) "")).

Definition shouldRetry (err : ChatError) : bool :=
  isRateLimit err || bool_decide (status err = Some 503%positive).

(** What a call leaves behind: how it completed, the delays it slept, in
    order, and how many requests it sent. *)
Inductive Completion : Type :=
| Returns (data : Json)
| Throws (err : option ChatError).

Record Run := { completion : Completion; slept : list Z; sent : nat }.

(** [policy.backoffMs[i] ?? policy.backoffMs[policy.backoffMs.length - 1]];
    with an empty ladder the only attempt is the last and nothing sleeps. *)
Definition delay (policy : ModelPolicy) (i : nat) : Z :=
  match backoffMs policy !! i with
  | Some d => d
  | None => List.last (backoffMs policy) 0%Z
  end.

(** The [for] loop, at index [i] with [todo] iterations left;
    [transport i] is what the endpoint answers to request number [i]. *)
Fixpoint attempt_loop `{Runtime} (policy : ModelPolicy) (transport : nat -> FetchOutcome)
    (attempts todo i : nat) (lastError : option ChatError) (sleeps : list Z) : Run :=
  match todo with
  | O => {| completion := Throws lastError; slept := sleeps; sent := i |}
  | S todo' =>
      match attempt (transport i) with
      | inl data => {| completion := Returns data; slept := sleeps; sent := S i |}
      | inr err =>
          if negb (shouldRetry err) || bool_decide (i = attempts - 1)
          then {| completion := Throws (Some err); slept := sleeps; sent := S i |}
          else attempt_loop policy transport attempts todo' (S i) (Some err)
                 (sleeps ++ [delay policy i])
      end
  end.

(** The body of [callChat] once the policy is chosen. The payload of the
    request (model, messages, temperature, response format) is the same
    for every attempt and does not enter what is observed here. *)
Definition callChat_with `{Runtime} (policy : ModelPolicy)
    (transport : nat -> FetchOutcome) : Run :=
  let attempts := length (backoffMs policy) + 1 in
  attempt_loop policy transport attempts attempts 0 None [].

Definition callChat `{Runtime} (OPENAI_API_KEY : option string) (model : string)
    (transport : nat -> FetchOutcome) : Run :=
  if blank (default "" OPENAI_API_KEY)
  then {| completion :=
            Throws (Some {| message := "OPENAI_API_KEY not set; cannot call OpenAI.";
                            status := None; code := None |});
          slept := []; sent := 0 |}
  else callChat_with (default defaultPolicy (modelPolicies model)) transport.

(** The retry signals of the specification, in its words: HTTP 429, an
    error message containing "rate limit" (in any letter case), or
    HTTP 503. *)
Definition retry_signal (err : ChatError) : Prop :=
  status err = Some 429%positive \/
  includes "rate limit" (toLowerCase (message err)) = true \/
  status err = Some 503%positive.

End OpenAIClient.

(* ================================================================== *)
(** * Per-company rollups *)
(* ================================================================== *)

Module Job.

(** An element of [comments]: a legacy rollup holds plain strings, a
    current one holds [{date, note}] objects. The note is what
    [summary.slice(0, 280)] produced. *)
Inductive CommentItem : Type :=
| LegacyNote (text : string)
| Entry (date : string) (note : Json).

Record JobDoc := {
  id : string;
  owner : string;
  company_name : string;
  applied : Z;
  rejected : Z;
  next_steps : Z;
  comments : option (list CommentItem);   (* [None]: not an array *)
  last_updated : string
}.

End Job.

Abbreviation JobDoc := Job.JobDoc.

(* ================================================================== *)
(** * What Gmail returns *)
(* ================================================================== *)

Module Gmail.

(** A node of the multipart tree of a message; [data] is [body.data],
    empty when the part has none. *)
Inductive Part : Type :=
| MkPart (mimeType : string) (headers : list Header) (data : string) (parts : list Part).

Definition headers_of (part : Part) : list Header :=
  match part with MkPart _ headers _ _ => headers end.

(** The full representation of a message ([users.messages.get]). Missing
    strings are empty; [internalDate] is [Number(data.internalDate)], with
    [None] when that is not a number. *)
Record Message := {
  id : string;
  snippet : string;
  labelIds : list string;
  internalDate : option Z;
  payload : option Part
}.

End Gmail.

(* ================================================================== *)
(** * The server: classifier and aggregator *)
(* ================================================================== *)

Module Server.

Record Config := {
  OPENAI_API_KEY : option string;
  EMAIL_CLASS_MODEL : string
}.

(** [!OPENAI_API_KEY] *)
Definition no_api_key (cfg : Config) : bool :=
  blank (default "" (OPENAI_API_KEY cfg)).

(** The classification as the TypeScript interface declares it. The
    status is one of five strings by that interface; the value comes from
    an unchecked cast of parsed JSON, so it is kept a string here. *)
Record ClassificationResult := {
  is_job_related : bool;
  status : string;
  summary : string;
  company_name : string
}.

(** The JSON object a classification of that interface is at run time. *)
Definition to_json (c : ClassificationResult) : Json :=
  JObj [ ("is_job_related", JBool (is_job_related c));
         ("status", JStr (status c));
         ("summary", JStr (summary c));
         ("company_name", JStr (company_name c)) ].

(** A request sent to the chat-completion endpoint. *)
Record ChatRequest := { model : string; content : string }.

Definition newline : string := String (Ascii.ascii_of_N 10) EmptyString.

(** ** classifyEmail *)

(** The result paired with the requests sent (none or one); [answer] is
    what the endpoint answers if it is asked. *)
Definition classifyEmail `{Runtime} (cfg : Config) (emailDoc : GmailEmailDoc)
    (answer : FetchOutcome) : Json * list ChatRequest :=
  if no_api_key cfg then (JNull, [])
  else
    let content :=
      "Subject: " +:+ or_str (Email.subject emailDoc) "(no subject)" +:+ newline +:+
      "From: " +:+ or_str (Email.from emailDoc) "unknown" +:+ newline +:+ newline +:+
      "Body:" +:+ newline +:+
      or_str (or_str (Email.body emailDoc) (Email.snippet emailDoc)) "" in
    let request := {| model := EMAIL_CLASS_MODEL cfg; content := content |} in
    let result :=
      match answer with
      | FetchRejects _ => JNull
      | BodyRejects _ _ => JNull
      | Responds st data =>
          if negb (ok st) then JNull
          else
            match first_choice_content data with
            | None => JNull
            | Some None => JNull
            | Some (Some message) =>
                if negb (truthy message) then JNull
                else
                  match JSON_parse (to_string message) with
                  | Some parsed => parsed
                  | None => JNull
                  end
            end
      end in
    (result, [request]).

(** The five-variant schema of the specification: an object with a boolean
    [is_job_related], a [status] among the five values, and strings
    [summary] and [company_name]. *)
Definition conforms (v : Json) : bool :=
  match prop "is_job_related" v, prop "status" v,
        prop "summary" v, prop "company_name" v with
  | Some (JBool _), Some (JStr st), Some (JStr _), Some (JStr _) =>
      bool_decide (st ∈ ["applied"; "rejected"; "next_steps"; "comment_only";
                         "not_job_related"])
  | _, _, _, _ => false
  end.

(** ** upsertJobStatus *)

(** The rollup container, keyed by document id and partition key. *)
Abbreviation Jobs := (gmap (string * string) JobDoc).

(** Every document sits under its own id and owner, as in a container
    partitioned by [/owner]. *)
Definition jobs_wf (jobs : Jobs) : Prop :=
  forall k doc, jobs !! k = Some doc -> k = (Job.id doc, Job.owner doc).

Inductive Outcome (A : Type) : Type :=
| Return (a : A)
| Throw.
Arguments Return {A} a.
Arguments Throw {A}.

(** What the world answers during one call of [upsertJobStatus]. *)
Record UpsertEnv := {
  today : string;        (* [new Date().toISOString().slice(0, 10)] *)
  read_fails : bool      (* the read raises an error other than 404 *)
}.

(** [(v || '')] of a property that must then have string methods: [None]
    when it is a truthy value that is not a string. *)
Definition string_or_empty (v : option Json) : option string :=
  match v with
  | None => Some ""
  | Some (JStr s) => Some s
  | Some x => if truthy x then None else Some ""
  end.

(** [(classification.summary || '').slice(0, 280)]: strings and arrays
    have a [slice]. *)
Definition note_of (v : option Json) : option Json :=
  match v with
  | None => Some (JStr "")
  | Some (JStr s) => Some (JStr (slice0 280 s))
  | Some (JArr items) => Some (JArr (take 280 items))
  | Some x => if truthy x then None else Some (JStr "")
  end.

(** [x || 0] on a counter *)
Definition or_zero (x : Z) : Z := if (x =? 0)%Z then 0%Z else x.

Definition companySlug (companyName : string) : string :=
  replace_spaces (toLowerCase companyName).

Definition docId (ownerEmail companyName : string) : string :=
  ownerEmail +:+ "::" +:+ companySlug companyName.

Definition fresh_doc (ownerEmail companyName today : string) : JobDoc :=
  {| Job.id := docId ownerEmail companyName; Job.owner := ownerEmail;
     Job.company_name := companyName;
     Job.applied := 0; Job.rejected := 0; Job.next_steps := 0;
     Job.comments := Some []; Job.last_updated := today |}.

(** [String(note)] of an element of a legacy list *)
Definition upgrade_item (today : string) (item : Job.CommentItem) : Job.CommentItem :=
  match item with
  | Job.LegacyNote text => Job.Entry today (JStr text)
  | Job.Entry _ _ => Job.Entry today (JStr "[object Object]")
  end.

(** The comments after the [Array.isArray] and legacy checks. *)
Definition upgrade_comments (today : string) (comments : option (list Job.CommentItem))
    : list Job.CommentItem :=
  match comments with
  | None => []
  | Some (Job.LegacyNote text :: rest) =>
      upgrade_item today <$> (Job.LegacyNote text :: rest)
  | Some items => items
  end.

Definition set_counters (doc : JobDoc) (a r n : Z) (comments : list Job.CommentItem)
    (today : string) : JobDoc :=
  {| Job.id := Job.id doc; Job.owner := Job.owner doc;
     Job.company_name := Job.company_name doc;
     Job.applied := a; Job.rejected := r; Job.next_steps := n;
     Job.comments := Some comments; Job.last_updated := today |}.

(** [jobsContainer.items.upsert(doc)] *)
Definition upsert_job (doc : JobDoc) (jobs : Jobs) : Jobs :=
  <[(Job.id doc, Job.owner doc) := doc]> jobs.

Definition upsertJobStatus (jobsContainer : option Jobs) (ownerRaw : string)
    (classification : Json) (env : UpsertEnv)
    : Outcome (option JobDoc) * option Jobs :=
  match jobsContainer with
  | None => (Return None, jobsContainer)
  | Some jobs =>
    if negb (truthy classification) then (Return None, jobsContainer)
    else
      match string_or_empty (prop "company_name" classification) with
      | None => (Throw, jobsContainer)
      | Some company =>
        let companyName := trim company in
        let ownerEmail := toLowerCase (trim (or_str ownerRaw "")) in
        if blank companyName then (Return None, jobsContainer)
        else if blank ownerEmail then (Return None, jobsContainer)
        else
          let st := prop "status" classification in
          if negb (truthy_opt (prop "is_job_related" classification))
             || is_string "not_job_related" st
             || negb (is_string "applied" st || is_string "rejected" st
                      || is_string "next_steps" st || is_string "comment_only" st)
          then (Return None, jobsContainer)
          else if read_fails env then (Throw, jobsContainer)
          else
            let doc :=
              match jobs !! (docId ownerEmail companyName, ownerEmail) with
              | Some stored => stored
              | None => fresh_doc ownerEmail companyName (today env)
              end in
            let comments := upgrade_comments (today env) (Job.comments doc) in
            let updated :=
              if is_string "applied" st then
                Some (set_counters doc (or_zero (Job.applied doc) + 1) (Job.rejected doc)
                        (Job.next_steps doc) comments (today env))
              else if is_string "rejected" st then
                Some (set_counters doc (Job.applied doc) (or_zero (Job.rejected doc) + 1)
                        (Job.next_steps doc) comments (today env))
              else if is_string "next_steps" st then
                Some (set_counters doc (Job.applied doc) (Job.rejected doc)
                        (or_zero (Job.next_steps doc) + 1) comments (today env))
              else
                match note_of (prop "summary" classification) with
                | Some note =>
                    Some (set_counters doc (Job.applied doc) (Job.rejected doc)
                            (Job.next_steps doc)
                            (comments ++ [Job.Entry (today env) note]) (today env))
                | None => None
                end in
            match updated with
            | Some doc' => (Return (Some doc'), Some (upsert_job doc' jobs))
            | None => (Throw, jobsContainer)
            end
      end
  end.

(** ** Vocabulary for the properties of the aggregator *)

(** The four status values that update a rollup. *)
Definition actionable (st : string) : Prop :=
  st ∈ ["applied"; "rejected"; "next_steps"; "comment_only"].

(** The normalized owner and company of a call, and the key of its
    rollup. *)
Definition owner_of (ownerRaw : string) : string := toLowerCase (trim ownerRaw).
Definition company_of (c : ClassificationResult) : string := trim (company_name c).
Definition rollup_key (ownerRaw : string) (c : ClassificationResult) : string * string :=
  (docId (owner_of ownerRaw) (company_of c), owner_of ownerRaw).

(** The rollup a call starts from: the stored one, or zeroed counters. *)
Definition rollup_before (jobs : Jobs) (ownerRaw : string) (c : ClassificationResult)
    (env : UpsertEnv) : JobDoc :=
  default (fresh_doc (owner_of ownerRaw) (company_of c) (today env))
          (jobs !! rollup_key ownerRaw c).

(** A list of comments that the legacy check leaves alone. *)
Definition upgraded (items : list Job.CommentItem) : Prop :=
  match items with
  | Job.LegacyNote _ :: _ => False
  | _ => True
  end.

(** The container after the same classification was applied twice, each
    call with its own date and store answers. *)
Definition upsert_twice (jobs : Jobs) (ownerRaw : string) (classification : Json)
    (env1 env2 : UpsertEnv) : option Jobs :=
  let jobs1 := (upsertJobStatus (Some jobs) ownerRaw classification env1).2 in
  (upsertJobStatus jobs1 ownerRaw classification env2).2.

(** ** classifyEmailAndUpsert *)

Definition classifyEmailAndUpsert `{Runtime} (cfg : Config) (emailDoc : GmailEmailDoc)
    (jobsContainer : option Jobs) (answer : FetchOutcome) (env : UpsertEnv)
    : Json * option Jobs * list ChatRequest :=
  match jobsContainer with
  | None => (JNull, jobsContainer, [])
  | Some _ =>
      let ownerEmail := toLowerCase (trim (or_str (Email.owner emailDoc) "")) in
      if blank ownerEmail then (JNull, jobsContainer, [])
      else
        let '(classification, requests) := classifyEmail cfg emailDoc answer in
        if negb (truthy classification) then (JNull, jobsContainer, requests)
        else
          (* a throw of upsertJobStatus is caught and logged *)
          let '(_, jobs') := upsertJobStatus jobsContainer ownerEmail classification env in
          (classification, jobs', requests)
  end.

End Server.

(* ================================================================== *)
(** * Cursor store (gmailStateStore) *)
(* ================================================================== *)

Module StateStore.

Record GmailState := { lastInternalDateMs : option Z }.

(** The secrets of the vault that hold sync state, by secret name. *)
Abbreviation Vault := (gmap string GmailState).

Definition alphanumeric (c : ascii) : bool :=
  let n := Ascii.N_of_ascii c in
  ((48 <=? n) && (n <=? 57) || (65 <=? n) && (n <=? 90) || (97 <=? n) && (n <=? 122))%N.

(** [ownerEmail.replace(/[^a-z0-9]/gi, '-').toLowerCase()] *)
Fixpoint slugify (ownerEmail : string) : string :=
  match ownerEmail with
  | EmptyString => EmptyString
  | String c r => String (if alphanumeric c then lower_char c else "-"%char) (slugify r)
  end.

Definition secretName (ownerEmail : string) : string :=
  "gmail-state-" +:+ slugify ownerEmail.

(** [null] when the secret does not exist. *)
Definition loadState (vault : Vault) (ownerEmail : string) : option GmailState :=
  vault !! secretName ownerEmail.

(** [{ ...current, ...partial }] *)
Definition merge (current partial : GmailState) : GmailState :=
  {| lastInternalDateMs :=
       match lastInternalDateMs partial with
       | Some ms => Some ms
       | None => lastInternalDateMs current
       end |}.

Definition saveState (vault : Vault) (ownerEmail : string) (partial : GmailState) : Vault :=
  let current := default {| lastInternalDateMs := None |} (loadState vault ownerEmail) in
  <[secretName ownerEmail := merge current partial]> vault.

(** The stored watermark of an owner, zero when there is none. *)
Definition cursor (vault : Vault) (ownerEmail : string) : Z :=
  default 0%Z (loadState vault ownerEmail ≫= lastInternalDateMs).

End StateStore.

(* ================================================================== *)
(** * The sync engine (fetchAndStoreGmailEmails) *)
(* ================================================================== *)

Module Sync.

Import Server.

(** [data.replace(/-/g, '+').replace(/_/g, '/')], then base64 decoding *)
Fixpoint normalize_base64 (data : string) : string :=
  match data with
  | EmptyString => EmptyString
  | String c r =>
      String (if decide (c = "-"%char) then "+"%char
              else if decide (c = "_"%char) then "/"%char else c)
             (normalize_base64 r)
  end.

Definition decodeBodyData `{Runtime} (data : string) : string :=
  base64_decode (normalize_base64 data).

(** Depth-first walk of the multipart tree: the first sub-part that yields
    text wins, then the body of the part itself. *)
Fixpoint extractMessageBody `{Runtime} (part : Gmail.Part) : string :=
  match part with
  | Gmail.MkPart mimeType _ data parts =>
      let fix first_text (subparts : list Gmail.Part) : string :=
        match subparts with
        | [] => ""
        | subpart :: rest =>
            let text := extractMessageBody subpart in
            if blank text then first_text rest else text
        end in
      let found := first_text parts in
      if negb (blank found) then found
      else if negb (blank data) then
        let text := decodeBodyData data in
        if includes "html" mimeType then htmlToText text else text
      else ""
  end.

(** The stored messages, keyed by document id and partition key. *)
Abbreviation Emails := (gmap (string * string) GmailEmailDoc).

(** What the world answers while one listed message is processed. *)
Record Observed := {
  data : Gmail.Message;       (* [gmail.users.messages.get] *)
  now : Z;                    (* [Date.now()] *)
  fetchedAt : string;         (* [new Date().toISOString()] for the document *)
  read_error : option Z;      (* code of the error raised by the read of the stored document *)
  answer : FetchOutcome;      (* the OpenAI endpoint, if it is asked *)
  upsert_env : UpsertEnv;     (* the date and the rollup read, if the aggregator runs *)
  classifiedAt : string       (* [new Date().toISOString()] after classification *)
}.

(** What [users.messages.list] answers, page after page: the last page
    carries no token. *)
Inductive Listing : Type :=
| LastPage (messages : list Observed)
| NextPage (messages : list Observed) (nextPageToken : string) (rest : Listing).

(** The local state of a run together with the stores it writes. *)
Record SyncState := {
  emails : Emails;
  jobs : option Jobs;
  requests : list ChatRequest;
  maxInternalDate : Z;
  docs : list GmailEmailDoc
}.

(** [Number(data.internalDate) || Date.now()] *)
Definition internalDateMs (m : Observed) : Z :=
  match Gmail.internalDate (data m) with
  | Some ms => if (ms =? 0)%Z then now m else ms
  | None => now m
  end.

(** The document built from the fetched message, with the fields of the
    compiled server. *)
Definition new_doc `{Runtime} (ownerEmail : string) (m : Observed) : GmailEmailDoc :=
  let headers := from_option Gmail.headers_of [] (Gmail.payload (data m)) in
  {| Email.id := or_str (Gmail.id (data m)) "";
     Email.owner := ownerEmail;
     Email.from := or_str (extractHeader headers "From") "unknown";
     Email.to := or_str (extractHeader headers "To") "";
     Email.subject := or_str (extractHeader headers "Subject") "(No subject)";
     Email.date := or_str (extractHeader headers "Date") "";
     Email.snippet := or_str (Gmail.snippet (data m)) "";
     Email.body :=
       or_str (or_str (from_option extractMessageBody "" (Gmail.payload (data m)))
                      (Gmail.snippet (data m))) "";
     Email.labelIds := Gmail.labelIds (data m);
     Email.fetchedAt := fetchedAt m;
     Email.internalDate := internalDateMs m;
     Email.classification := None;
     Email.classifiedAt := None;
     Email.createdAt := None |}.

(** The three assignments that carry fields of the stored document over. *)
Definition carry_forward (existingDoc doc : GmailEmailDoc) : GmailEmailDoc :=
  {| Email.id := Email.id doc; Email.owner := Email.owner doc;
     Email.from := Email.from doc; Email.to := Email.to doc;
     Email.subject := Email.subject doc; Email.date := Email.date doc;
     Email.snippet := Email.snippet doc; Email.body := Email.body doc;
     Email.labelIds := Email.labelIds doc; Email.fetchedAt := Email.fetchedAt doc;
     Email.internalDate := Email.internalDate doc;
     Email.classification := Email.classification existingDoc;
     Email.classifiedAt := Email.classifiedAt existingDoc;
     Email.createdAt :=
       Some (or_str (default "" (Email.createdAt existingDoc)) (Email.fetchedAt doc)) |}.

(** [doc.classification = classification; doc.classifiedAt = ...] *)
Definition set_classification (classification : Json) (stamp : string)
    (doc : GmailEmailDoc) : GmailEmailDoc :=
  {| Email.id := Email.id doc; Email.owner := Email.owner doc;
     Email.from := Email.from doc; Email.to := Email.to doc;
     Email.subject := Email.subject doc; Email.date := Email.date doc;
     Email.snippet := Email.snippet doc; Email.body := Email.body doc;
     Email.labelIds := Email.labelIds doc; Email.fetchedAt := Email.fetchedAt doc;
     Email.internalDate := Email.internalDate doc;
     Email.classification := Some classification;
     Email.classifiedAt := Some stamp;
     Email.createdAt := Email.createdAt doc |}.

(** [emailContainer.items.upsert(doc)] *)
Definition upsert_email (doc : GmailEmailDoc) (emails : Emails) : Emails :=
  <[(Email.id doc, Email.owner doc) := doc]> emails.

(** [Boolean(resource?.classification?.status)] *)
Definition alreadyClassified (resource : GmailEmailDoc) : bool :=
  truthy_opt (opt_prop "status" (Email.classification resource)).

(** The body of the loop over the messages of a page. *)
Definition store_message `{Runtime} (cfg : Config) (ownerEmail : string)
    (st : SyncState) (m : Observed) : SyncState :=
  let doc := new_doc ownerEmail m in
  let maxInternalDate' :=
    if (internalDateMs m >? maxInternalDate st)%Z then internalDateMs m
    else maxInternalDate st in
  let existingDoc :=
    match read_error m with
    | Some _ => None            (* logged unless the code is 404 *)
    | None => emails st !! (Email.id doc, ownerEmail)
    end in
  let doc :=
    match existingDoc with
    | Some existing => carry_forward existing doc
    | None => doc
    end in
  let emails1 := upsert_email doc (emails st) in
  let resource := doc in
  if negb (alreadyClassified resource) && bool_decide (is_Some (jobs st))
     && negb (no_api_key cfg)
  then
    let '(classification, jobs', sent) :=
      classifyEmailAndUpsert cfg doc (jobs st) (answer m) (upsert_env m) in
    if truthy classification then
      let doc := set_classification classification (classifiedAt m) doc in
      {| emails := upsert_email doc emails1; jobs := jobs';
         requests := requests st ++ sent;
         maxInternalDate := maxInternalDate'; docs := docs st ++ [doc] |}
    else
      {| emails := emails1; jobs := jobs'; requests := requests st ++ sent;
         maxInternalDate := maxInternalDate'; docs := docs st ++ [doc] |}
  else
    {| emails := emails1; jobs := jobs st; requests := requests st;
       maxInternalDate := maxInternalDate'; docs := docs st ++ [doc] |}.

(** The document a message is stored as before any classification: the
    fetched one, with the three carried fields when the read found a
    stored document. *)
Definition merged `{Runtime} (ownerEmail : string) (st : SyncState) (m : Observed)
    : GmailEmailDoc :=
  let doc := new_doc ownerEmail m in
  match match read_error m with
        | Some _ => None
        | None => emails st !! (Email.id doc, ownerEmail)
        end with
  | Some existing => carry_forward existing doc
  | None => doc
  end.

(** The [do ... while (pageToken)] loop. *)
Fixpoint paginate `{Runtime} (cfg : Config) (ownerEmail : string)
    (listing : Listing) (st : SyncState) : SyncState :=
  match listing with
  | LastPage messages => foldl (store_message cfg ownerEmail) st messages
  | NextPage messages nextPageToken rest =>
      let st' := foldl (store_message cfg ownerEmail) st messages in
      if blank nextPageToken then st' else paginate cfg ownerEmail rest st'
  end.

(** The messages a run goes through, in order. *)
Fixpoint listed (listing : Listing) : list Observed :=
  match listing with
  | LastPage messages => messages
  | NextPage messages nextPageToken rest =>
      if blank nextPageToken then messages else messages ++ listed rest
  end.

(** No stored document of [after] carries a classification that the
    same document did not carry in [before]. *)
Definition no_new_classification (before after : Emails) : Prop :=
  forall k doc, after !! k = Some doc ->
    Email.classification doc = None \/
    exists old, before !! k = Some old /\
                Email.classification old = Email.classification doc.

(** What a run without a key preserves, message after message. *)
Definition quiet (before : Emails) (st0 st : SyncState) : Prop :=
  jobs st = jobs st0 /\ requests st = requests st0 /\
  no_new_classification before (emails st).

Record Options := { queryOverride : string; skipStateUpdate : bool }.

(** The query sent with every [list] call. *)
Inductive GmailQuery : Type :=
| Override (q : string)          (* the caller's query, trimmed *)
| After (afterSeconds : Z)       (* [after:<seconds>] *)
| NewerThan7d.                   (* [newer_than:7d] *)

(** [state.lastInternalDateMs ? Number(state.lastInternalDateMs) : null] *)
Definition stored_cursor (vault : StateStore.Vault) (ownerEmail : string) : option Z :=
  match StateStore.loadState vault ownerEmail ≫= StateStore.lastInternalDateMs with
  | Some ms => if (ms =? 0)%Z then None else Some ms
  | None => None
  end.

Definition gmailQuery (options : Options) (lastInternalDateMs : option Z) : GmailQuery :=
  if negb (blank (queryOverride options)) then Override (trim (queryOverride options))
  else match lastInternalDateMs with
       | Some ms => After (ms / 1000)%Z     (* [Math.floor(lastInternalDateMs / 1000)] *)
       | None => NewerThan7d
       end.

(** What the world answers to one run. *)
Record RunEnv := {
  savedTokens : bool;               (* [tokenStore.loadTokens] finds credentials *)
  listing : GmailQuery -> Listing   (* what Gmail lists for a query *)
}.

Inductive SyncError : Type :=
| OwnerRequired            (* 'Owner email required for Gmail fetch' *)
| NoGmailTokens.           (* code 'NO_GMAIL_TOKENS' *)

Record SyncReturn := { fetched : nat; owner : option string }.

(** The stores after a run. *)
Record World := {
  w_emails : option Emails;
  w_jobs : option Jobs;
  w_vault : StateStore.Vault;
  w_requests : list ChatRequest
}.

(** The run. [oauthClient] tells whether a client was passed in. The
    profile call only feeds a log line and is left out. *)
Definition fetchAndStoreGmailEmails `{Runtime} (cfg : Config)
    (emailContainer : option Emails) (oauthClient : bool) (jobsContainer : option Jobs)
    (ownerRaw : string) (options : Options) (env : RunEnv) (vault : StateStore.Vault)
    : (SyncError + SyncReturn) * World :=
  let untouched := {| w_emails := emailContainer; w_jobs := jobsContainer;
                      w_vault := vault; w_requests := [] |} in
  let ownerEmail := toLowerCase (trim (or_str ownerRaw "")) in
  if blank ownerEmail then (inl OwnerRequired, untouched)
  else
    match emailContainer with
    | None => (inr {| fetched := 0; owner := None |}, untouched)
    | Some emails0 =>
      let useState := blank (queryOverride options) in
      if negb oauthClient && negb (savedTokens env) then (inl NoGmailTokens, untouched)
      else
        let lastInternalDateMs : option Z :=
          if useState then stored_cursor vault ownerEmail else None in
        let query := gmailQuery options lastInternalDateMs in
        let start := {| emails := emails0; jobs := jobsContainer; requests := [];
                        maxInternalDate := default 0%Z lastInternalDateMs; docs := [] |} in
        let final := paginate cfg ownerEmail (listing env query) start in
        match docs final with
        | [] =>
            (inr {| fetched := 0; owner := Some ownerEmail |},
             {| w_emails := Some (emails final); w_jobs := jobs final;
                w_vault := vault; w_requests := requests final |})
        | _ :: _ =>
            let vault' :=
              if useState && negb (skipStateUpdate options)
                 && (maxInternalDate final >? default 0%Z lastInternalDateMs)%Z
              then StateStore.saveState vault ownerEmail
                     {| StateStore.lastInternalDateMs := Some (maxInternalDate final) |}
              else vault in
            (inr {| fetched := length (docs final); owner := Some ownerEmail |},
             {| w_emails := Some (emails final); w_jobs := jobs final;
                w_vault := vault'; w_requests := requests final |})
        end
    end.

End Sync.

(* ================================================================== *)
(** * Concrete data for the examples *)
(* ================================================================== *)

Module Samples.

(** A runtime that agrees with [JSON.parse] on the three texts used in the
    examples and rejects every other text. *)
Definition sample_runtime : Runtime :=
  {| JSON_parse := fun text =>
       if decide (text = "{}") then Some (JObj [])
       else if decide (text = "[]") then Some (JArr [])
       else if decide (text = "null") then Some JNull
       else None;
     ToString := fun _ => "[object Object]";
     base64_decode := fun data => data;
     htmlToText := fun text => text |}.

(** A stored message classified as an application to [company]. *)
Definition acme_applied (company : string) : GmailEmailDoc :=
  {| Email.id := "1"; Email.owner := "user@example.com"; Email.from := "a@example.com";
     Email.to := "user@example.com"; Email.subject := "Offer"; Email.date := "Mon";
     Email.snippet := "snippet"; Email.body := "body"; Email.labelIds := [];
     Email.fetchedAt := "2024-01-01T00:00:00Z"; Email.internalDate := 1;
     Email.classification :=
       Some (JObj [ ("is_job_related", JBool true); ("status", JStr "applied");
                    ("summary", JStr ""); ("company_name", JStr company) ]);
     Email.classifiedAt := None; Email.createdAt := None |}.

(** The five messages of companyFilter.test.ts, with the fields the filter
    reads. *)
Definition test_email (id : string) (classification : option Json) : GmailEmailDoc :=
  {| Email.id := id; Email.owner := "user@example.com"; Email.from := "a@example.com";
     Email.to := "user@example.com"; Email.subject := "Offer"; Email.date := "Mon";
     Email.snippet := "snippet"; Email.body := "body"; Email.labelIds := [];
     Email.fetchedAt := "2024-01-01T00:00:00Z"; Email.internalDate := 1;
     Email.classification := classification;
     Email.classifiedAt := None; Email.createdAt := None |}.

Definition test_classification (job : bool) (st company : string) : option Json :=
  Some (JObj [ ("is_job_related", JBool job); ("status", JStr st);
               ("summary", JStr ""); ("company_name", JStr company) ]).

Definition test_emails : list GmailEmailDoc :=
  [ test_email "1" (test_classification true "applied" "Acme");
    test_email "1b" (test_classification false "not_job_related" "Acme");
    test_email "2" (test_classification true "applied" "Beta Corp");
    test_email "3" (test_classification true "applied" "");
    test_email "4" None ].

(** Two answers with HTTP 429, then a success. *)
Definition two_rate_limits (i : nat) : FetchOutcome :=
  match i with
  | 0 | 1 => Responds 429 (JObj [("error", JObj [("message", JStr "slow down")])])
  | _ => Responds 200 (JObj [("choices", JArr [])])
  end.

(** A 2xx answer whose first choice carries [text] as its content. *)
Definition answer_with (text : string) : FetchOutcome :=
  Responds 200
    (JObj [("choices", JArr [JObj [("message", JObj [("content", JStr text)])]])]).

Definition config : Server.Config :=
  {| Server.OPENAI_API_KEY := Some "sk-test"; Server.EMAIL_CLASS_MODEL := "gpt-4o-mini" |}.

Definition config_without_key : Server.Config :=
  {| Server.OPENAI_API_KEY := None; Server.EMAIL_CLASS_MODEL := "gpt-4o-mini" |}.

(** A stored message that was classified on its first fetch; like every
    document of a first fetch it has no [createdAt]. *)
Definition stored_m1 : GmailEmailDoc :=
  {| Email.id := "m1"; Email.owner := "a@x.com"; Email.from := "jobs@acme.com";
     Email.to := "a@x.com"; Email.subject := "Application received";
     Email.date := "Mon, 01 Jan 2024"; Email.snippet := "Thanks"; Email.body := "Thanks";
     Email.labelIds := []; Email.fetchedAt := "2024-01-01T08:00:00.000Z";
     Email.internalDate := 100000;
     Email.classification :=
       Some (JObj [ ("is_job_related", JBool true); ("status", JStr "applied");
                    ("summary", JStr "Application received");
                    ("company_name", JStr "Acme") ]);
     Email.classifiedAt := Some "2024-01-01T08:00:01.000Z";
     Email.createdAt := None |}.

(** The same message, listed again a month later. *)
Definition refetch_m1 : Sync.Observed :=
  {| Sync.data := {| Gmail.id := "m1"; Gmail.snippet := "Thanks"; Gmail.labelIds := [];
                     Gmail.internalDate := Some 100000%Z; Gmail.payload := None |};
     Sync.now := 200000;
     Sync.fetchedAt := "2024-02-01T08:00:00.000Z";
     Sync.read_error := None;
     Sync.answer := FetchRejects "fetch failed";
     Sync.upsert_env := {| Server.today := "2024-02-01"; Server.read_fails := false |};
     Sync.classifiedAt := "2024-02-01T08:00:01.000Z" |}.

Definition state_with_m1 : Sync.SyncState :=
  {| Sync.emails := {[ ("m1", "a@x.com") := stored_m1 ]};
     Sync.jobs := Some ∅; Sync.requests := [];
     Sync.maxInternalDate := 100000; Sync.docs := [] |}.

(** A listed message that is new to the store, with its timestamp. *)
Definition fresh_message (id : string) (ms : Z) : Sync.Observed :=
  {| Sync.data := {| Gmail.id := id; Gmail.snippet := "Hello"; Gmail.labelIds := [];
                     Gmail.internalDate := Some ms; Gmail.payload := None |};
     Sync.now := 300000;
     Sync.fetchedAt := "2024-02-01T08:00:00.000Z";
     Sync.read_error := None;
     Sync.answer := FetchRejects "fetch failed";
     Sync.upsert_env := {| Server.today := "2024-02-01"; Server.read_fails := false |};
     Sync.classifiedAt := "2024-02-01T08:00:01.000Z" |}.

Definition incremental : Sync.Options :=
  {| Sync.queryOverride := ""; Sync.skipStateUpdate := false |}.

Definition two_messages : Sync.RunEnv :=
  {| Sync.savedTokens := true;
     Sync.listing := fun _ =>
       Sync.LastPage [fresh_message "m1" 100000; fresh_message "m2" 200000] |}.

Definition no_messages : Sync.RunEnv :=
  {| Sync.savedTokens := true; Sync.listing := fun _ => Sync.LastPage [] |}.

Definition env_on (day : string) : Server.UpsertEnv :=
  {| Server.today := day; Server.read_fails := false |}.

Definition classified (job : bool) (st company text : string) : Server.ClassificationResult :=
  {| Server.is_job_related := job; Server.status := st;
     Server.summary := text; Server.company_name := company |}.

(** The rollups after the classifications of a list were applied in order
    for one owner, all on the same day. *)
Definition apply_all (ownerRaw day : string) (cs : list Server.ClassificationResult)
    : option Server.Jobs :=
  foldl (fun jobs c => (Server.upsertJobStatus jobs ownerRaw (Server.to_json c) (env_on day)).2)
        (Some ∅) cs.

End Samples.

(* ================================================================== *)
(** * More string functions *)
(* ================================================================== *)

Module Text.

(** [s.split(c)] for a one-character separator: never empty. *)
Fixpoint split_on (c : ascii) (s : string) : list string :=
  match s with
  | EmptyString => [EmptyString]
  | String a r =>
      if decide (a = c) then EmptyString :: split_on c r
      else match split_on c r with
           | first :: others => String a first :: others
           | [] => [String a EmptyString]
           end
  end.

(** [s.slice(n)] *)
Fixpoint drop_chars (n : nat) (s : string) : string :=
  match n, s with
  | S n', String _ r => drop_chars n' r
  | _, _ => s
  end.

(** [s.replace(pat, '')]: the first occurrence of [pat] is removed. *)
Fixpoint remove_first (pat s : string) : string :=
  if startsWith pat s then drop_chars (String.length pat) s
  else match s with
       | EmptyString => EmptyString
       | String a r => String a (remove_first pat r)
       end.

(** [s.replace(/c/g, r)] for one character [c]. *)
Fixpoint replace_char (c : ascii) (r s : string) : string :=
  match s with
  | EmptyString => EmptyString
  | String a rest =>
      if decide (a = c) then r +:+ replace_char c r rest
      else String a (replace_char c r rest)
  end.

(** Whether the character occurs in the string. *)
Fixpoint occurs (c : ascii) (s : string) : bool :=
  match s with
  | EmptyString => false
  | String a r => bool_decide (a = c) || occurs c r
  end.

(** [String(n)] of an integer *)
Definition show (n : Z) : string := NilZero.string_of_int (Z.to_int n).

End Text.

Import Text.

(* ================================================================== *)
(** * HTML escaping of the Gmail preview page (escapeHtml) *)
(* ================================================================== *)

Module Html.

Definition double_quote : ascii := Ascii.ascii_of_N 34.

(** The five replacements, in the order of the source. *)
Definition escapeHtml (str : string) : string :=
  replace_char "'" "&#39;"
    (replace_char double_quote "&quot;"
       (replace_char ">" "&gt;"
          (replace_char "<" "&lt;"
             (replace_char "&" "&amp;" str)))).

(** The characters that open or close markup or an attribute value. *)
Definition markup : list ascii := ["<"; ">"; double_quote; "'"]%char.

End Html.

(* ================================================================== *)
(** * Session tokens (createSessionToken, verifySessionToken) *)
(* ================================================================== *)

Module Session.

Record SessionPayload := {
  name : string;
  email : string;
  picture : string;
  createdAt : string;
  exp : Z
}.

Record User := { user_name : string; user_email : string; user_picture : string }.

(** The primitives of the crypto and Buffer libraries, with the session
    secret fixed. *)
Class Codec := {
  (** HMAC-SHA256 of the data under the session secret, in base64url *)
  signSessionData : string -> string;
  (** [Buffer.from(JSON.stringify(payload)).toString('base64url')] *)
  encodeSessionPayload : SessionPayload -> string;
  (** [JSON.parse(Buffer.from(data, 'base64url').toString('utf8'))];
      [None] when it throws *)
  decodeSessionPayload : string -> option SessionPayload
}.

(** [now] is [Date.now()], [stamp] is [new Date().toISOString()]. *)
Definition new_payload (SESSION_DURATION_MS : Z) (user : User) (now : Z) (stamp : string)
    : SessionPayload :=
  {| name := or_str (user_name user) "";
     email := or_str (user_email user) "";
     picture := or_str (user_picture user) "";
     createdAt := stamp;
     exp := (now + SESSION_DURATION_MS)%Z |}.

Definition createSessionToken `{Codec} (SESSION_DURATION_MS : Z) (user : User)
    (now : Z) (stamp : string) : string :=
  let data := encodeSessionPayload (new_payload SESSION_DURATION_MS user now stamp) in
  let signature := signSessionData data in
  data +:+ "." +:+ signature.

(** [null] is [None]. The two buffers hold the characters of the two
    strings, so comparing them compares the strings. *)
Definition verifySessionToken `{Codec} (token : string) (now : Z) : option SessionPayload :=
  if blank token then None
  else
    match split_on "." token with
    | data :: signature :: _ =>
        if blank data || blank signature then None
        else
          let expected := signSessionData data in
          if negb (String.length signature =? String.length expected) then None
          else if negb (bool_decide (signature = expected)) then None
          else
            match decodeSessionPayload data with
            | None => None
            | Some payload =>
                if negb (exp payload =? 0)%Z && (exp payload <? now)%Z then None
                else Some payload
            end
    | _ => None
    end.

End Session.

(* ================================================================== *)
(** * The scheduled sweep (getPreviousEasternDayRangeSeconds,
      scheduleGmailJob) *)
(* ================================================================== *)

Module Schedule.

Import Sync.


(** The parts [Intl.DateTimeFormat] gives for the current instant in the
    Eastern time zone. *)
Record DateParts := {
  year : string;
  month : string;
  day : string;
  timeZoneName : option string
}.

(** [String(value).padStart(2, '0')] *)
Definition pad2 (value : string) : string :=
  match value with
  | EmptyString => "00"
  | String a EmptyString => String "0" value
  | _ => value
  end.

(** The offset text of the time zone name, as [+hh:mm] or [-hh:mm]. *)
Definition offsetString (parts : DateParts) : string :=
  let offset := or_str (default "" (timeZoneName parts)) "GMT-05:00" in
  let offset := remove_first "GMT" offset in
  let '(sign, offset) :=
    if startsWith "-" offset then ("-", drop_chars 1 offset)
    else if startsWith "+" offset then ("+", drop_chars 1 offset)
    else ("+", offset) in
  let fields := split_on ":" offset in
  let hours := pad2 (or_str (default "" (fields !! 0)) "0") in
  let minutes := pad2 (or_str (default "" (fields !! 1)) "0") in
  sign +:+ hours +:+ ":" +:+ minutes.


Definition rangeQuery (range : option (Z * Z)) : string :=
  match range with
  | Some (after, before) => "after:" +:+ show after +:+ " before:" +:+ show before
  | None => "after:NaN before:NaN"
  end.

(** What the world answers to one firing of the cron job. *)
Record SweepEnv := {
  owners : list string;           (* [tokenStore.listOwners()] *)
  range : option (Z * Z);         (* the window of the previous day *)
  runs : string -> RunEnv         (* the answers to the run of each owner *)
}.

(** One turn of the loop over the owners: the run of the owner on the
    stores as they are, any error caught and logged. *)
Definition sweep_owner `{Runtime} (cfg : Server.Config) (env : SweepEnv)
    (w : World) (owner : string) : World :=
  let options := {| queryOverride := rangeQuery (range env); skipStateUpdate := true |} in
  let run := fetchAndStoreGmailEmails cfg (w_emails w) false (w_jobs w) owner options
               (runs env owner) (w_vault w) in
  {| w_emails := w_emails run.2; w_jobs := w_jobs run.2; w_vault := w_vault run.2;
     w_requests := w_requests w ++ w_requests run.2 |}.

(** The callback of [scheduleGmailJob]. *)
Definition scheduledFetch `{Runtime} (cfg : Server.Config) (env : SweepEnv)
    (w : World) : World :=
  foldl (sweep_owner cfg env) w (owners env).

(** An owner whose run does not end in an error: the address is not
    blank and the token store holds credentials for it. *)
Definition connected (env : SweepEnv) (owner : string) : bool :=
  negb (blank (toLowerCase (trim owner))) && savedTokens (runs env owner).

End Schedule.

(* ================================================================== *)
(** * Tokens and sync state in the users container
      (gmailTokenStore.ts and the Cosmos variant of gmailStateStore) *)
(* ================================================================== *)

Module UserStore.

(** A bundle of OAuth tokens: a JSON object, by field name. *)
Abbreviation Tokens := (gmap string Json).

Record UserDoc := {
  id : string;
  userid : string;
  gmailTokens : option Tokens;
  gmailState : option StateStore.GmailState
}.

(** The users container, keyed by document id and partition key. *)
Abbreviation Users := (gmap (string * string) UserDoc).

Inductive Failure : Type :=
| NotConfigured      (* 'Users container not configured ...' *)
| OwnerRequired      (* 'Owner email required ...' *)
| ReadFailed.        (* the read raised an error other than 404 *)

(** [None] is the throw on an empty owner. *)
Definition normalizeOwner (ownerEmail : string) : option string :=
  if blank ownerEmail then None else Some (toLowerCase (trim ownerEmail)).

(** The prologue shared by the four functions: the container, the
    partition key and the stored document, or the failure. *)
Definition open_doc (usersContainer : option Users) (ownerEmail : string)
    (read_fails : bool) : Failure + (Users * string * option UserDoc) :=
  match usersContainer with
  | None => inl NotConfigured
  | Some users =>
      match normalizeOwner ownerEmail with
      | None => inl OwnerRequired
      | Some pk =>
          if read_fails then inl ReadFailed
          else inr (users, pk, users !! (pk, pk))
      end
  end.

Definition loadTokens (usersContainer : option Users) (ownerEmail : string)
    (read_fails : bool) : Failure + option Tokens :=
  match open_doc usersContainer ownerEmail read_fails with
  | inl failure => inl failure
  | inr (_, _, resource) => inr (resource ≫= gmailTokens)
  end.

(** The merged tokens it returns, and the container after the upsert. *)
Definition saveTokens (usersContainer : option Users) (ownerEmail : string)
    (newTokens : Tokens) (read_fails : bool) : Failure + (Tokens * Users) :=
  match open_doc usersContainer ownerEmail read_fails with
  | inl failure => inl failure
  | inr (users, pk, existingDoc) =>
      let existingTokens := default ∅ (existingDoc ≫= gmailTokens) in
      let merged := newTokens ∪ existingTokens in     (* { ...existingTokens, ...newTokens } *)
      let doc := {| id := pk; userid := pk; gmailTokens := Some merged;
                    gmailState := existingDoc ≫= gmailState |} in
      inr (merged, <[(pk, pk) := doc]> users)
  end.

Definition loadState (usersContainer : option Users) (ownerEmail : string)
    (read_fails : bool) : Failure + option StateStore.GmailState :=
  match open_doc usersContainer ownerEmail read_fails with
  | inl failure => inl failure
  | inr (_, _, resource) => inr (resource ≫= gmailState)
  end.

Definition saveState (usersContainer : option Users) (ownerEmail : string)
    (partial : StateStore.GmailState) (read_fails : bool)
    : Failure + (StateStore.GmailState * Users) :=
  match open_doc usersContainer ownerEmail read_fails with
  | inl failure => inl failure
  | inr (users, pk, existingDoc) =>
      let currentState :=
        default {| StateStore.lastInternalDateMs := None |} (existingDoc ≫= gmailState) in
      let nextState := StateStore.merge currentState partial in
      let doc := {| id := pk; userid := pk; gmailState := Some nextState;
                    gmailTokens := existingDoc ≫= gmailTokens |} in
      inr (nextState, <[(pk, pk) := doc]> users)
  end.

End UserStore.

(* ================================================================== *)
(** * Sequences of aggregator calls *)
(* ================================================================== *)

Module Rollups.

Import Server.

(** The container after the classifications of a list were applied in
    order for one owner, each with its own date and store answer. *)
Definition upsert_all (jobs : Jobs) (ownerRaw : string)
    (calls : list (ClassificationResult * UpsertEnv)) : option Jobs :=
  foldl (fun container call =>
           (upsertJobStatus container ownerRaw (to_json call.1) call.2).2)
        (Some jobs) calls.

(** How many calls of the list carry the status [st]. *)
Definition count_status (st : string)
    (calls : list (ClassificationResult * UpsertEnv)) : Z :=
  Z.of_nat (length (filter (fun call => status call.1 = st) calls)).

(** A call that the aggregator applies: job related, an actionable
    status, a company that is not blank, and a read that succeeds. *)
Definition applies (call : ClassificationResult * UpsertEnv) : Prop :=
  is_job_related call.1 = true /\ actionable (status call.1) /\
  trim (company_name call.1) <> "" /\ read_fails call.2 = false.

(** A counter of the rollup stored under [key], zero when there is no
    such rollup, and the number of its comments. *)
Definition counter (field : JobDoc -> Z) (jobs : Jobs) (key : string * string) : Z :=
  from_option field 0%Z (jobs !! key).

Definition comment_count (jobs : Jobs) (key : string * string) : Z :=
  Z.of_nat (length (default [] (jobs !! key ≫= Job.comments))).

End Rollups.

(* ================================================================== *)
(** * Keys of the stored messages *)
(* ================================================================== *)

Module Keys.

Import Sync.


End Keys.

Import Keys.

(* ================================================================== *)
(** * Concrete data for the further examples *)
(* ================================================================== *)

Module Cases.

Definition ada : Session.User :=
  {| Session.user_name := "Ada"; Session.user_email := "ada@x.com";
     Session.user_picture := "" |}.

(** Ten days in milliseconds, the default session duration. *)
Definition ten_days : Z := 10 * 24 * 60 * 60 * 1000.

Definition ada_payload : Session.SessionPayload :=
  Session.new_payload ten_days ada 1000 "2024-01-01T00:00:00.000Z".

(** A codec that knows one payload: it encodes to one text, signs with
    one text and decodes every text to that payload. *)
Definition one_payload_codec : Session.Codec :=
  {| Session.signSessionData := fun _ => "c2lnbmF0dXJl";
     Session.encodeSessionPayload := fun _ => "eyJuYW1lIjoiQWRhIn0";
     Session.decodeSessionPayload := fun _ => Some ada_payload |}.


Definition winter_day : Schedule.DateParts :=
  {| Schedule.year := "2024"; Schedule.month := "01"; Schedule.day := "15";
     Schedule.timeZoneName := Some "GMT-5" |}.


(** A rollup written by an earlier version: its comments are strings. *)
Definition legacy_acme : JobDoc :=
  {| Job.id := "a@x.com::acme"; Job.owner := "a@x.com"; Job.company_name := "Acme";
     Job.applied := 1; Job.rejected := 0; Job.next_steps := 0;
     Job.comments := Some [Job.LegacyNote "sent resume"; Job.LegacyNote "phone screen"];
     Job.last_updated := "2023-12-01" |}.

Definition legacy_jobs : Server.Jobs := {[ ("a@x.com::acme", "a@x.com") := legacy_acme ]}.

(** Three mails about one company, on three days. *)
Definition acme_calls : list (Server.ClassificationResult * Server.UpsertEnv) :=
  [ (Samples.classified true "applied" "Acme" "Received", Samples.env_on "2024-01-01");
    (Samples.classified true "comment_only" " acme " "Recruiter said hello",
     Samples.env_on "2024-01-02");
    (Samples.classified true "applied" "Acme" "Received again", Samples.env_on "2024-01-03") ].

(** A runtime whose JSON parser reads every text as [v]. *)
Definition reads_as (v : Json) : Runtime :=
  {| JSON_parse := fun _ => Some v;
     ToString := fun _ => "[object Object]";
     base64_decode := fun data => data;
     htmlToText := fun text => text |}.

Definition acme_received : Server.ClassificationResult :=
  Samples.classified true "applied" "Acme" "Received".

(** A run that has stored nothing yet, with an empty rollup container. *)
Definition empty_state : Sync.SyncState :=
  {| Sync.emails := ∅; Sync.jobs := Some ∅; Sync.requests := [];
     Sync.maxInternalDate := 0; Sync.docs := [] |}.

(** The message [m1] as listed, with the answers given to its processing:
    the code of the error of the lookup, if any, what the endpoint answers,
    and whether the read of the rollup fails. *)
Definition listed_m1 (read_error : option Z) (answer : FetchOutcome) (read_fails : bool)
    : Sync.Observed :=
  {| Sync.data := {| Gmail.id := "m1"; Gmail.snippet := "Thanks"; Gmail.labelIds := [];
                     Gmail.internalDate := Some 100000%Z; Gmail.payload := None |};
     Sync.now := 200000;
     Sync.fetchedAt := "2024-02-01T08:00:00.000Z";
     Sync.read_error := read_error;
     Sync.answer := answer;
     Sync.upsert_env := {| Server.today := "2024-02-01"; Server.read_fails := read_fails |};
     Sync.classifiedAt := "2024-02-01T08:00:01.000Z" |}.

(** The parts of a [multipart/alternative] message: an empty part, the
    plain text and the HTML rendering. *)
Definition empty_part : Gmail.Part := Gmail.MkPart "text/plain" [] "" [].
Definition plain_part : Gmail.Part := Gmail.MkPart "text/plain" [] "aGVsbG8" [].
Definition html_part : Gmail.Part := Gmail.MkPart "text/html" [] "PGI-aGVsbG88L2I-" [].

(** Tokens as Google sends them: the first grant carries a refresh token,
    a later refresh only a new access token. *)
Definition first_grant : UserStore.Tokens :=
  {[ "access_token" := JStr "at-1"; "refresh_token" := JStr "rt-1" ]}.
Definition refreshed : UserStore.Tokens := {[ "access_token" := JStr "at-2" ]}.

(** A users container in which one owner has tokens and a cursor. *)
Definition ada_doc : UserStore.UserDoc :=
  {| UserStore.id := "ada@x.com"; UserStore.userid := "ada@x.com";
     UserStore.gmailTokens := Some first_grant;
     UserStore.gmailState := Some {| StateStore.lastInternalDateMs := Some 100000%Z |} |}.

Definition ada_users : UserStore.Users := {[ ("ada@x.com", "ada@x.com") := ada_doc ]}.

End Cases.

(* ================================================================== *)
(** * Properties *)
(* ================================================================== *)

(** ** Header lookup *)

(** C5 as stated: a header named "from" is not found under "From", although
    the two names agree up to letter case. *)
Lemma extractHeader_case_sensitive :
  let headers := [ {| name := Some "from"; value := Some "jobs@acme.com" |} ] in
  toLowerCase "from" = toLowerCase "From" /\
  extractHeader headers "From" = "" /\
  extractHeader headers "from" = "jobs@acme.com".
Proof. repeat split; reflexivity. Qed.

(** C5, amended: the lookup is exact in the header name. It returns the
    value (or the empty string for a missing value) of the first header
    whose name is the requested one, character for character, and the empty
    string when no header carries exactly that name. *)
Theorem extractHeader_exact (headers : list Header) (n : string) :
  (Forall (fun h => name h <> Some n) headers -> extractHeader headers n = "") /\
  (forall before h after,
      headers = before ++ h :: after ->
      Forall (fun h' => name h' <> Some n) before ->
      name h = Some n ->
      extractHeader headers n = from_option id "" (value h)).
Proof.
  unfold extractHeader. split.
  - induction 1 as [|h l Hh _ IH]; simpl; [done|].
    rewrite bool_decide_eq_false_2 by done. exact IH.
  - intros before h after -> Hb Hn.
    induction Hb as [|h' l Hh' _ IH]; simpl.
    + by rewrite bool_decide_eq_true_2.
    + rewrite bool_decide_eq_false_2 by done. exact IH.
Qed.

Lemma extractHeader_exact_witness :
  extractHeader [ {| name := Some "To"; value := Some "me@x.com" |} ] "From" = "" /\
  extractHeader
    [ {| name := Some "To"; value := Some "me@x.com" |};
      {| name := Some "From"; value := Some "jobs@acme.com" |} ] "From"
  = "jobs@acme.com".
Proof.
  split.
  - apply (proj1 (extractHeader_exact _ "From")).
    repeat constructor. simpl. congruence.
  - apply (proj2 (extractHeader_exact _ "From")
             [ {| name := Some "To"; value := Some "me@x.com" |} ]
             {| name := Some "From"; value := Some "jobs@acme.com" |} []).
    + reflexivity.
    + repeat constructor. simpl. congruence.
    + reflexivity.
Defined.

(** ** Company query *)

Import CompanyFilter.

Lemma or_str_empty (s : string) : or_str s "" = s.
Proof. unfold or_str, blank. case_bool_decide; congruence. Qed.

Lemma is_string_true (s : string) (v : option Json) :
  is_string s v = true <-> v = Some (JStr s).
Proof.
  unfold is_string. destruct v as [[]|]; try (split; [discriminate|congruence]).
  rewrite bool_decide_eq_true. split; congruence.
Qed.

(** The callback of the filter decides the match of the specification
    against the normalized query. *)
Lemma keeps_spec_match (companyName : string) (email : GmailEmailDoc) :
  keeps (normalizeCompany companyName) email = true <-> spec_match companyName email.
Proof.
  unfold keeps, spec_match, normalizeCompany. rewrite !or_str_empty.
  destruct (Email.classification email) as [c|]; simpl.
  2:{ split; [discriminate|]. intros (c & company & ? & _); discriminate. }
  destruct c as [| | | |?|fields]; simpl;
    try (split; [discriminate|]; intros (c & company & Hc & _ & _ & Hn & _);
         injection Hc as <-; discriminate).
  destruct (assoc "company_name" fields) as [[| | |c| |]|] eqn:Hcomp;
    try (split; [discriminate|]; intros (x & company & Hx & _ & _ & Hn & _);
         injection Hx as <-; simpl in Hn; congruence).
  destruct (assoc "is_job_related" fields) as [[|[]| | | |]|] eqn:Hjob;
    try (split; [discriminate|]; intros (x & company & Hx & Hj & _);
         injection Hx as <-; simpl in Hj; congruence).
  destruct (is_string "not_job_related" (assoc "status" fields)) eqn:Hst.
  - apply is_string_true in Hst. split; [discriminate|].
    intros (x & company & Hx & _ & Hs & _). injection Hx as <-. simpl in Hs. congruence.
  - rewrite or_str_empty, bool_decide_eq_true. split.
    + intros Heq. exists (JObj fields), c. simpl. repeat split; try done.
      intros Hs. apply is_string_true in Hs. congruence.
    + intros (x & company & Hx & _ & _ & Hn & Heq). injection Hx as <-.
      simpl in Hn. congruence.
Qed.

#[local] Instance spec_match_dec (companyName : string) (email : GmailEmailDoc) :
  Decision (spec_match companyName email).
Proof.
  refine (cast_if (decide (keeps (normalizeCompany companyName) email = true))).
  - apply keeps_spec_match. assumption.
  - intros Hm. apply keeps_spec_match in Hm. contradiction.
Defined.

(** C8 as stated: for a blank query name the filter returns nothing,
    although a stored message meets every condition of the match (its
    company name is blank as well). *)
Lemma filterEmailsByCompany_blank_query :
  filter (spec_match "  ") [Samples.acme_applied ""] = [Samples.acme_applied ""] /\
  filterEmailsByCompany [Samples.acme_applied ""] "  " = [].
Proof. split; reflexivity. Qed.

(** C8, amended: for a query name that is not blank after trimming, the
    filter returns exactly the messages, in their order, whose
    classification is present with [is_job_related == true],
    [status != not_job_related] and a company name equal to the query after
    trimming and lowercasing; for a blank query name it returns the empty
    list. *)
Theorem filterEmailsByCompany_spec (emails : list GmailEmailDoc) (companyName : string) :
  (trim companyName <> "" ->
     filterEmailsByCompany emails companyName = filter (spec_match companyName) emails) /\
  (trim companyName = "" -> filterEmailsByCompany emails companyName = []).
Proof.
  unfold filterEmailsByCompany. split.
  - intros Hne. cbv zeta.
    assert (blank (normalizeCompany companyName) = false) as ->.
    { unfold normalizeCompany. rewrite or_str_empty. apply bool_decide_eq_false.
      destruct (trim companyName); [done|discriminate]. }
    induction emails as [|email emails IH]; [done|].
    rewrite filter_cons. simpl. rewrite IH.
    destruct (keeps (normalizeCompany companyName) email) eqn:Hk;
      case_decide as Hm; try done.
    + apply keeps_spec_match in Hk. done.
    + apply keeps_spec_match in Hm. congruence.
  - intros Hblank. unfold normalizeCompany. rewrite or_str_empty, Hblank. reflexivity.
Qed.

Lemma filterEmailsByCompany_spec_witness :
  filterEmailsByCompany [Samples.acme_applied "acme"; Samples.acme_applied "Acme Inc"] "Acme"
    = filter (spec_match "Acme") [Samples.acme_applied "acme"; Samples.acme_applied "Acme Inc"] /\
  filterEmailsByCompany [Samples.acme_applied "acme"] " " = [].
Proof.
  split.
  - apply (proj1 (filterEmailsByCompany_spec _ "Acme")). simpl. discriminate.
  - apply (proj2 (filterEmailsByCompany_spec _ " ")). reflexivity.
Defined.

(** The examples of the specification: "Acme" finds "acme" and does not
    find "Acme Inc". *)
Example filterEmailsByCompany_acme :
  filterEmailsByCompany [Samples.acme_applied "acme"; Samples.acme_applied "Acme Inc"] "Acme"
  = [Samples.acme_applied "acme"].
Proof. reflexivity. Qed.

(** The assertions of companyFilter.test.ts. *)
Example companyFilter_tests :
  Email.id <$> filterEmailsByCompany Samples.test_emails "acme" = ["1"] /\
  Email.id <$> filterEmailsByCompany Samples.test_emails "BETA CORP" = ["2"] /\
  filterEmailsByCompany Samples.test_emails "Missing" = [].
Proof. repeat split; reflexivity. Qed.

(** ** Classifier transport: the backoff ladder *)

Import OpenAIClient.

Section CallChat.
Context `{Runtime}.

(** Errors built from a response carry its status; the others carry
    neither status nor code. *)
Lemma attempt_error_shape (answer : FetchOutcome) (err : ChatError) :
  attempt answer = inr err ->
  (status err = None /\ code err = None) \/ (exists st, status err = Some st).
Proof.
  destruct answer as [m|st m|st data]; simpl.
  - intros [= <-]. by left.
  - intros [= <-]. by left.
  - destruct (ok st); [discriminate|]. intros [= <-]. right. by eexists.
Qed.

(** On the errors an attempt can raise, the test of the code is the retry
    signal of the specification. *)
Lemma shouldRetry_signal (answer : FetchOutcome) (err : ChatError) :
  attempt answer = inr err ->
  shouldRetry err = true <-> retry_signal err.
Proof.
  intros Ha. apply attempt_error_shape in Ha.
  unfold shouldRetry, isRateLimit, retry_signal. rewrite or_str_empty.
  rewrite orb_true_iff, bool_decide_eq_true.
  destruct Ha as [[-> ->]|[st ->]]; unfold strict_eq_num.
  - split; [intros [?|?]; auto | intros [?|[?|?]]; auto; discriminate].
  - destruct (Z.pos st =? 429)%Z eqn:H429.
    + apply Z.eqb_eq in H429. injection H429 as ->. split; auto.
    + apply Z.eqb_neq in H429. split; [intros [?|?]; auto|].
      intros [[= Hst]|[?|?]]; auto. congruence.
Qed.

Lemma attempt_loop_inv (policy : ModelPolicy) (transport : nat -> FetchOutcome)
    (attempts : nat) :
  attempts = length (backoffMs policy) + 1 ->
  forall todo i lastError sleeps,
    i + todo = attempts -> 0 < todo -> sleeps = take i (backoffMs policy) ->
    let r := attempt_loop policy transport attempts todo i lastError sleeps in
    (i < sent r <= attempts) /\
    slept r = take (sent r - 1) (backoffMs policy) /\
    (forall j, i <= j -> S j < sent r ->
       exists err, attempt (transport j) = inr err /\ shouldRetry err = true) /\
    (forall j err, i <= j -> j < sent r ->
       attempt (transport j) = inr err -> shouldRetry err = false ->
       sent r = S j /\ completion r = Throws (Some err)) /\
    (forall data, completion r = Returns data ->
       attempt (transport (sent r - 1)) = inl data).
Proof.
  intros Hatt. induction todo as [|todo IH]; intros i lastError sleeps Hsum Hpos Hsl; [lia|].
  simpl. destruct (attempt (transport i)) as [data|err] eqn:Ha.
  - simpl. rewrite ?Nat.sub_0_r.
    split; [lia|]. split; [done|]. split; [intros; lia|]. split.
    + intros j err ? ? ?. assert (j = i) as -> by lia. congruence.
    + intros d [= <-]. done.
  - destruct (negb (shouldRetry err) || bool_decide (i = attempts - 1)) eqn:Hstop.
    + simpl. rewrite ?Nat.sub_0_r.
      split; [lia|]. split; [done|]. split; [intros; lia|]. split; [|discriminate].
      intros j err' ? ? ? ?. assert (j = i) as -> by lia.
      split; [done|]. congruence.
    + apply orb_false_iff in Hstop as [Hretry Hlast].
      apply negb_false_iff in Hretry. apply bool_decide_eq_false in Hlast.
      assert (Hi : i < length (backoffMs policy)) by lia.
      destruct (lookup_lt_is_Some_2 _ _ Hi) as [d Hd].
      specialize (IH (S i) (Some err) (sleeps ++ [delay policy i])).
      destruct IH as (Hsent & Hslept & Honly & Habort & Hret); [lia|lia| |].
      { unfold delay. rewrite Hd, Hsl. symmetry. by apply take_S_r. }
      split; [lia|]. split; [done|]. split; [|split; [|done]].
      * intros j Hj Hlt. destruct (decide (j = i)) as [->|Hne]; [eauto|].
        apply Honly; lia.
      * intros j err' Hj Hlt Hj' Hno. destruct (decide (j = i)) as [->|Hne]; [congruence|].
        eapply Habort; eauto; lia.
Qed.

(** C4: a call sends at most one request more than the ladder of its
    model has delays; the delays slept are the first ones of the ladder,
    in order, one per retry; a request is followed by another one only
    after a failure that is HTTP 429, has a message containing
    "rate limit", or is HTTP 503; any other failure ends the call at once
    with that error. With the ladder 400, 800, 1600, two answers with
    HTTP 429 and then a success, the call sleeps 400 and 800 and returns
    the body of the third answer. *)
Theorem callChat_retry_policy (OPENAI_API_KEY : option string) (model : string)
    (transport : nat -> FetchOutcome) :
  let ladder := backoffMs (default defaultPolicy (modelPolicies model)) in
  let r := callChat OPENAI_API_KEY model transport in
  sent r <= length ladder + 1 /\
  slept r = take (sent r - 1) ladder /\
  (forall i, S i < sent r ->
     exists err, attempt (transport i) = inr err /\ retry_signal err) /\
  (forall i err, i < sent r -> attempt (transport i) = inr err ->
     ~ retry_signal err ->
     sent r = S i /\ completion r = Throws (Some err)) /\
  (forall body1 body2 st data,
     transport 0 = Responds 429 body1 ->
     transport 1 = Responds 429 body2 ->
     transport 2 = Responds st data -> ok st = true ->
     callChat_with {| backoffMs := [400; 800; 1600]%Z |} transport
     = {| completion := Returns data; slept := [400; 800]%Z; sent := 3 |}).
Proof.
  intros ladder r. subst ladder r. unfold callChat.
  destruct (blank (default "" OPENAI_API_KEY)); simpl.
  - split; [lia|]. split; [done|]. split; [intros; lia|]. split; [intros; lia|].
    intros body1 body2 st data H0 H1 H2 Hok. unfold callChat_with. simpl.
    rewrite H0. simpl. rewrite H1. simpl. rewrite H2. simpl. rewrite Hok. done.
  - set (policy := default defaultPolicy (modelPolicies model)).
    destruct (attempt_loop_inv policy transport _ eq_refl
                (length (backoffMs policy) + 1) 0 None [])
      as (Hsent & Hslept & Honly & Habort & _); [lia|lia|done|].
    fold (callChat_with policy transport) in *.
    split; [lia|]. split; [done|]. split; [|split].
    + intros i Hi. destruct (Honly i) as (err & Ha & Hretry); [lia|done|].
      exists err. split; [done|]. by eapply shouldRetry_signal.
    + intros i err Hi Ha Hno. apply Habort; [lia|done|done|].
      destruct (shouldRetry err) eqn:Hretry; [|done].
      exfalso. apply Hno. by eapply shouldRetry_signal.
    + intros body1 body2 st data H0 H1 H2 Hok. unfold callChat_with. simpl.
      rewrite H0. simpl. rewrite H1. simpl. rewrite H2. simpl. rewrite Hok. done.
Qed.

End CallChat.

Lemma callChat_retry_policy_witness :
  (exists err, attempt (H := Samples.sample_runtime) (Samples.two_rate_limits 0) = inr err /\
               retry_signal err) /\
  callChat_with (H := Samples.sample_runtime)
      {| backoffMs := [400; 800; 1600]%Z |} Samples.two_rate_limits
  = {| completion := Returns (JObj [("choices", JArr [])]);
       slept := [400; 800]%Z; sent := 3 |}.
Proof.
  pose proof (callChat_retry_policy (H := Samples.sample_runtime)
                (Some "sk-test") "gpt-4o-mini" Samples.two_rate_limits)
    as (_ & _ & Honly & _ & Hexample).
  split.
  - apply (Honly 0). vm_compute. lia.
  - apply (Hexample _ _ 200%positive _ eq_refl eq_refl eq_refl eq_refl).
Defined.

(** ** Classifier: classifyEmail *)

Import Server.

(** C6 as stated: a 2xx answer whose content is the text of an empty JSON
    object is returned as that object. It is not null, and it does not
    conform to the five-variant schema. *)
Lemma classifyEmail_returns_nonconforming :
  let result :=
    (classifyEmail (H := Samples.sample_runtime) Samples.config
       (Samples.acme_applied "Acme") (Samples.answer_with "{}")).1 in
  result = JObj [] /\ result <> JNull /\ conforms result = false.
Proof. repeat split; try reflexivity. discriminate. Qed.

(** C6, amended: with an API key configured, [classifyEmail] returns null
    on a transport error, on a body that is not JSON, on a non-2xx answer,
    on a missing or empty content and on a content that [JSON.parse]
    rejects; on every other answer it returns what [JSON.parse] makes of the
    content, as it is, whether or not that value conforms to the schema. In
    particular a conforming classification is returned as parsed. *)
Theorem classifyEmail_null_or_parsed `{Runtime} (cfg : Config) (emailDoc : GmailEmailDoc)
    (answer : FetchOutcome) :
  no_api_key cfg = false ->
  let result := (classifyEmail cfg emailDoc answer).1 in
  (forall m, answer = FetchRejects m -> result = JNull) /\
  (forall st m, answer = BodyRejects st m -> result = JNull) /\
  (forall st data, answer = Responds st data -> ok st = false -> result = JNull) /\
  (forall st data, answer = Responds st data ->
     first_choice_content data = None \/ first_choice_content data = Some None ->
     result = JNull) /\
  (forall st data message, answer = Responds st data ->
     first_choice_content data = Some (Some message) -> truthy message = false ->
     result = JNull) /\
  (forall st data message, answer = Responds st data -> ok st = true ->
     first_choice_content data = Some (Some message) -> truthy message = true ->
     result = default JNull (JSON_parse (to_string message))).
Proof.
  intros Hkey result. subst result. unfold classifyEmail. rewrite Hkey. simpl.
  split; [by intros m ->|]. split; [by intros st m ->|].
  split; [by intros st data -> ->|].
  split; [intros st data -> [-> | ->]; by destruct (ok st)|].
  split; [intros st data message -> -> ->; by destruct (ok st)|].
  intros st data message -> -> -> ->. simpl. by destruct (JSON_parse _).
Qed.

Lemma classifyEmail_null_or_parsed_witness :
  (classifyEmail (H := Samples.sample_runtime) Samples.config
     (Samples.acme_applied "Acme") (Samples.answer_with "{}")).1
  = default JNull (JSON_parse (Runtime := Samples.sample_runtime) "{}").
Proof.
  pose proof (classifyEmail_null_or_parsed (H := Samples.sample_runtime) Samples.config
                (Samples.acme_applied "Acme") (Samples.answer_with "{}") eq_refl)
    as (_ & _ & _ & _ & _ & Hparsed).
  apply (Hparsed 200%positive _ (JStr "{}") eq_refl eq_refl eq_refl eq_refl).
Defined.

(** ** Aggregator: upsertJobStatus *)

Section Aggregator.

Implicit Types (c : ClassificationResult) (jobs : Jobs) (env : UpsertEnv).

Lemma toLowerCase_blank (s : string) : blank (toLowerCase s) = blank s.
Proof. by destruct s. Qed.

Lemma blank_false (s : string) : blank s = false <-> s <> "".
Proof. unfold blank. by rewrite bool_decide_eq_false. Qed.


Lemma or_zero_id (x : Z) : or_zero x = x.
Proof. unfold or_zero. destruct (Z.eqb_spec x 0); congruence. Qed.

Lemma slice0_length (n : nat) (s : string) :
  String.length (slice0 n s) = Nat.min n (String.length s).
Proof.
  revert s. induction n as [|n IH]; intros [|a s]; simpl; try done.
  by rewrite IH.
Qed.

Lemma actionable_test (st : string) :
  is_string "applied" (Some (JStr st)) || is_string "rejected" (Some (JStr st))
  || is_string "next_steps" (Some (JStr st)) || is_string "comment_only" (Some (JStr st))
  = bool_decide (actionable st).
Proof.
  unfold actionable, is_string. apply Bool.eq_iff_eq_true.
  rewrite !orb_true_iff, !bool_decide_eq_true, !elem_of_cons, elem_of_nil. tauto.
Qed.

(** [upsertJobStatus] on a classification of the declared interface. *)
Lemma upsertJobStatus_typed jobs (ownerRaw : string) c env :
  upsertJobStatus (Some jobs) ownerRaw (to_json c) env =
  if blank (company_of c) then (Return None, Some jobs)
  else if blank (owner_of ownerRaw) then (Return None, Some jobs)
  else if negb (is_job_related c) || bool_decide (status c = "not_job_related")
          || negb (bool_decide (actionable (status c)))
  then (Return None, Some jobs)
  else if read_fails env then (Throw, Some jobs)
  else
    let doc := rollup_before jobs ownerRaw c env in
    let comments := upgrade_comments (today env) (Job.comments doc) in
    let doc' :=
      if bool_decide (status c = "applied") then
        set_counters doc (Job.applied doc + 1) (Job.rejected doc) (Job.next_steps doc)
          comments (today env)
      else if bool_decide (status c = "rejected") then
        set_counters doc (Job.applied doc) (Job.rejected doc + 1) (Job.next_steps doc)
          comments (today env)
      else if bool_decide (status c = "next_steps") then
        set_counters doc (Job.applied doc) (Job.rejected doc) (Job.next_steps doc + 1)
          comments (today env)
      else
        set_counters doc (Job.applied doc) (Job.rejected doc) (Job.next_steps doc)
          (comments ++ [Job.Entry (today env) (JStr (slice0 280 (summary c)))])
          (today env) in
    (Return (Some doc'), Some (upsert_job doc' jobs)).
Proof.
  unfold upsertJobStatus.
  change (prop "company_name" (to_json c)) with (Some (JStr (company_name c))).
  change (prop "status" (to_json c)) with (Some (JStr (status c))).
  change (prop "is_job_related" (to_json c)) with (Some (JBool (is_job_related c))).
  change (prop "summary" (to_json c)) with (Some (JStr (summary c))).
  change (truthy (to_json c)) with true.
  cbn [negb string_or_empty truthy_opt truthy note_of].
  rewrite or_str_empty, actionable_test.
  fold (company_of c) (owner_of ownerRaw).
  destruct (blank (company_of c)); [done|].
  destruct (blank (owner_of ownerRaw)); [done|].
  change (is_string "not_job_related" (Some (JStr (status c))))
    with (bool_decide (status c = "not_job_related")).
  destruct (negb (is_job_related c) || bool_decide (status c = "not_job_related")
            || negb (bool_decide (actionable (status c)))); [done|].
  destruct (read_fails env); [done|].
  fold (rollup_key ownerRaw c). unfold rollup_before.
  rewrite !or_zero_id. unfold is_string.
  destruct (jobs !! rollup_key ownerRaw c); simpl;
    destruct (bool_decide (status c = "applied")); try done;
    destruct (bool_decide (status c = "rejected")); try done;
    destruct (bool_decide (status c = "next_steps")); done.
Qed.

(** C7: the aggregator skips when [is_job_related] is false, when the
    status is [not_job_related] or outside the four actionable values,
    when the company name is blank after trimming, or when the owner is
    blank after trimming: it returns null and the container of rollups is
    the one it was given, with nothing created and nothing changed. *)
Theorem upsertJobStatus_skips (jobsContainer : option Jobs) (ownerRaw : string) c env :
  is_job_related c = false \/ status c = "not_job_related" \/ ~ actionable (status c) \/
  trim (company_name c) = "" \/ trim ownerRaw = "" ->
  upsertJobStatus jobsContainer ownerRaw (to_json c) env = (Return None, jobsContainer).
Proof.
  intros Hskip. destruct jobsContainer as [jobs|]; [|done].
  rewrite upsertJobStatus_typed.
  destruct (blank (company_of c)) eqn:Hcompany; [done|].
  destruct (blank (owner_of ownerRaw)) eqn:Howner; [done|].
  apply blank_false in Hcompany.
  unfold owner_of in Howner. rewrite toLowerCase_blank in Howner.
  apply blank_false in Howner.
  destruct Hskip as [-> | [-> | [Hst | [? | ?]]]]; try done.
  - by rewrite orb_true_r.
  - by rewrite (bool_decide_eq_false_2 _ Hst), orb_true_r.
Qed.

Lemma upsertJobStatus_skips_witness :
  upsertJobStatus (Some ∅) "a@x.com"
    (to_json (Samples.classified false "not_job_related" "Acme" "A newsletter"))
    (Samples.env_on "2024-01-01")
  = (Return None, Some ∅).
Proof. apply upsertJobStatus_skips. left. reflexivity. Defined.

Lemma upgrade_comments_upgraded (day : string) comments :
  upgraded (upgrade_comments day comments).
Proof. by destruct comments as [[|[] ?]|]. Qed.

Lemma upgrade_comments_id (day : string) (items : list Job.CommentItem) :
  upgraded items -> upgrade_comments day (Some items) = items.
Proof. by destruct items as [|[] ?]. Qed.

Lemma upgraded_app (items : list Job.CommentItem) (day : string) (note : Json) :
  upgraded items -> upgraded (items ++ [Job.Entry day note]).
Proof. by destruct items as [|[] ?]. Qed.

Lemma upgrade_comments_length (day : string) comments :
  length (upgrade_comments day comments) = length (default [] comments).
Proof. destruct comments as [[|[] ?]|]; simpl; by rewrite ?length_fmap. Qed.

(** Under [jobs_wf], the rollup a call starts from sits under the key of
    the call. *)
Lemma rollup_before_key jobs (ownerRaw : string) c env :
  jobs_wf jobs ->
  let doc := rollup_before jobs ownerRaw c env in
  (Job.id doc, Job.owner doc) = rollup_key ownerRaw c.
Proof.
  intros Hwf. unfold rollup_before.
  destruct (jobs !! rollup_key ownerRaw c) as [stored|] eqn:Hstored; simpl.
  - symmetry. by apply Hwf.
  - done.
Qed.

Lemma upsert_job_wf jobs (doc : JobDoc) : jobs_wf jobs -> jobs_wf (upsert_job doc jobs).
Proof.
  intros Hwf k d. unfold upsert_job. rewrite lookup_insert.
  case_decide; [by intros [= <-]|]. apply Hwf.
Qed.

End Aggregator.

Section Reprocessing.

Implicit Types (c : ClassificationResult) (jobs : Jobs) (env : UpsertEnv).

(** A call that passes the skip checks and whose read succeeds stores the
    rollup it returns under the key of the call. *)
Lemma upsertJobStatus_applies jobs (ownerRaw : string) c env :
  jobs_wf jobs -> is_job_related c = true -> actionable (status c) ->
  trim (company_name c) <> "" -> trim ownerRaw <> "" -> read_fails env = false ->
  exists doc,
    upsertJobStatus (Some jobs) ownerRaw (to_json c) env
      = (Return (Some doc), Some (<[rollup_key ownerRaw c := doc]> jobs)) /\
    let before := rollup_before jobs ownerRaw c env in
    let prior := upgrade_comments (today env) (Job.comments before) in
    doc = set_counters before
            (Job.applied before + if bool_decide (status c = "applied") then 1 else 0)
            (Job.rejected before + if bool_decide (status c = "rejected") then 1 else 0)
            (Job.next_steps before + if bool_decide (status c = "next_steps") then 1 else 0)
            (if bool_decide (status c = "comment_only")
             then prior ++ [Job.Entry (today env) (JStr (slice0 280 (summary c)))]
             else prior)
            (today env).
Proof.
  intros Hwf Hjob Hact Hcompany Howner Hread.
  rewrite upsertJobStatus_typed.
  apply blank_false in Hcompany. fold (company_of c) in Hcompany. rewrite Hcompany.
  apply blank_false in Howner. rewrite <- toLowerCase_blank in Howner.
  fold (owner_of ownerRaw) in Howner. rewrite Howner.
  rewrite Hjob, (bool_decide_eq_true_2 _ Hact), Hread. simpl negb.
  pose proof (rollup_before_key jobs ownerRaw c env Hwf) as Hkey. simpl in Hkey.
  unfold actionable in Hact. rewrite !elem_of_cons, elem_of_nil in Hact.
  destruct Hact as [Hst | [Hst | [Hst | [Hst | []]]]]; rewrite Hst; simpl;
    eexists; (split; [unfold upsert_job; simpl; rewrite Hkey; reflexivity|]);
    simpl; by rewrite ?Z.add_0_r.
Qed.

(** C3 as stated: a classification with an actionable status, an owner
    and a company, but with [is_job_related] false, is skipped both times;
    no counter moves and no rollup exists afterwards. *)
Lemma upsertJobStatus_twice_not_job_related :
  let c := Samples.classified false "applied" "Acme" "Thanks for applying" in
  actionable (status c) /\ trim (company_name c) <> "" /\ trim "a@x.com" <> "" /\
  upsert_twice ∅ "a@x.com" (to_json c)
    (Samples.env_on "2024-01-01") (Samples.env_on "2024-01-02") = Some ∅.
Proof.
  split; [|split; [|split]]; try done.
  unfold actionable. set_solver.
Qed.

(** C3, amended: the aggregator is not idempotent. For a classification
    with [is_job_related] true, an actionable status and a non-blank owner
    and company, applying it twice to the same rollup leaves the matching
    counter two higher than before (counting from zero when the rollup
    did not exist), and for [comment_only] it leaves two more comment
    entries at the end of the comments. *)
Theorem upsertJobStatus_twice_counts_twice jobs (ownerRaw : string) c env1 env2 :
  jobs_wf jobs -> is_job_related c = true -> actionable (status c) ->
  trim (company_name c) <> "" -> trim ownerRaw <> "" ->
  read_fails env1 = false -> read_fails env2 = false ->
  let before := rollup_before jobs ownerRaw c env1 in
  let prior := upgrade_comments (today env1) (Job.comments before) in
  let note := JStr (slice0 280 (summary c)) in
  exists jobs2 after,
    upsert_twice jobs ownerRaw (to_json c) env1 env2 = Some jobs2 /\
    jobs2 !! rollup_key ownerRaw c = Some after /\
    (status c = "applied" -> Job.applied after = (Job.applied before + 2)%Z) /\
    (status c = "rejected" -> Job.rejected after = (Job.rejected before + 2)%Z) /\
    (status c = "next_steps" -> Job.next_steps after = (Job.next_steps before + 2)%Z) /\
    (status c = "comment_only" ->
       Job.comments after
       = Some (prior ++ [Job.Entry (today env1) note; Job.Entry (today env2) note])).
Proof.
  intros Hwf Hjob Hact Hcompany Howner Hread1 Hread2 before prior note.
  destruct (upsertJobStatus_applies jobs ownerRaw c env1) as (doc1 & Hcall1 & Hdoc1);
    try done.
  fold before prior in Hdoc1. simpl in Hdoc1.
  set (jobs1 := <[rollup_key ownerRaw c := doc1]> jobs) in *.
  assert (Hkey1 : (Job.id doc1, Job.owner doc1) = rollup_key ownerRaw c).
  { rewrite Hdoc1. simpl. by apply rollup_before_key. }
  assert (Hwf1 : jobs_wf jobs1).
  { unfold jobs1. rewrite <- Hkey1. by apply upsert_job_wf. }
  destruct (upsertJobStatus_applies jobs1 ownerRaw c env2) as (doc2 & Hcall2 & Hdoc2);
    try done.
  assert (Hbefore2 : rollup_before jobs1 ownerRaw c env2 = doc1).
  { unfold rollup_before, jobs1. by rewrite lookup_insert_eq. }
  simpl in Hdoc2. rewrite Hbefore2 in Hdoc2.
  exists (<[rollup_key ownerRaw c := doc2]> jobs1), doc2.
  split; [unfold upsert_twice; rewrite Hcall1; cbn [snd]; by rewrite Hcall2|].
  split; [by rewrite lookup_insert_eq|].
  assert (Hcomments : upgrade_comments (today env2) (Job.comments doc1)
                      = default [] (Job.comments doc1)).
  { rewrite Hdoc1. simpl. apply upgrade_comments_id.
    destruct (bool_decide (status c = "comment_only"));
      [apply upgraded_app|]; apply upgrade_comments_upgraded. }
  rewrite Hcomments in Hdoc2. rewrite Hdoc2, Hdoc1. simpl.
  split; [intros ->; simpl; lia|]. split; [intros ->; simpl; lia|].
  split; [intros ->; simpl; lia|]. intros ->. simpl. by rewrite <- app_assoc.
Qed.

Lemma upsertJobStatus_twice_counts_twice_witness :
  exists jobs2 after,
    upsert_twice ∅ "a@x.com"
      (to_json (Samples.classified true "applied" "Acme" "Thanks for applying"))
      (Samples.env_on "2024-01-01") (Samples.env_on "2024-01-02") = Some jobs2 /\
    jobs2 !! ("a@x.com::acme", "a@x.com") = Some after /\
    Job.applied after = 2%Z.
Proof.
  destruct (upsertJobStatus_twice_counts_twice ∅ "a@x.com"
              (Samples.classified true "applied" "Acme" "Thanks for applying")
              (Samples.env_on "2024-01-01") (Samples.env_on "2024-01-02"))
    as (jobs2 & after & Htwice & Hlookup & Happlied & _).
  - intros k doc. rewrite lookup_empty. discriminate.
  - reflexivity.
  - unfold actionable. simpl. set_solver.
  - simpl. discriminate.
  - simpl. discriminate.
  - reflexivity.
  - reflexivity.
  - exists jobs2, after. split; [exact Htwice|]. split; [exact Hlookup|].
    apply Happlied. reflexivity.
Defined.

(** C9: a [comment_only] classification that passes the skip checks
    appends exactly one entry to the comments of its rollup, dated today,
    whose note is the first 280 characters of the summary (the whole
    summary when it is shorter); the counters stay as they were. A summary
    of 500 characters gives a note of exactly 280 characters. *)
Theorem upsertJobStatus_comment_only jobs (ownerRaw : string) c env :
  status c = "comment_only" -> is_job_related c = true ->
  trim (company_name c) <> "" -> trim ownerRaw <> "" -> read_fails env = false ->
  let before := rollup_before jobs ownerRaw c env in
  let prior := upgrade_comments (today env) (Job.comments before) in
  let note := slice0 280 (summary c) in
  exists doc,
    upsertJobStatus (Some jobs) ownerRaw (to_json c) env
      = (Return (Some doc), Some (upsert_job doc jobs)) /\
    Job.comments doc = Some (prior ++ [Job.Entry (today env) (JStr note)]) /\
    length prior = length (default [] (Job.comments before)) /\
    Job.applied doc = Job.applied before /\
    Job.rejected doc = Job.rejected before /\
    Job.next_steps doc = Job.next_steps before /\
    String.length note = Nat.min 280 (String.length (summary c)) /\
    (String.length (summary c) = 500 -> String.length note = 280).
Proof.
  intros Hst Hjob Hcompany Howner Hread before prior note.
  rewrite upsertJobStatus_typed.
  apply blank_false in Hcompany. fold (company_of c) in Hcompany. rewrite Hcompany.
  apply blank_false in Howner. rewrite <- toLowerCase_blank in Howner.
  fold (owner_of ownerRaw) in Howner. rewrite Howner.
  rewrite Hjob, Hread, Hst. simpl.
  eexists. split; [reflexivity|]. simpl.
  split; [done|]. split; [apply upgrade_comments_length|].
  split; [done|]. split; [done|]. split; [done|].
  subst note. rewrite slice0_length. split; [done|]. intros ->. done.
Qed.

Lemma upsertJobStatus_comment_only_witness :
  exists doc,
    upsertJobStatus (Some ∅) "a@x.com"
      (to_json (Samples.classified true "comment_only" "Acme" "Recruiter said hello"))
      (Samples.env_on "2024-01-01")
      = (Return (Some doc), Some (upsert_job doc ∅)) /\
    Job.comments doc
    = Some [Job.Entry "2024-01-01" (JStr "Recruiter said hello")].
Proof.
  destruct (upsertJobStatus_comment_only ∅ "a@x.com"
              (Samples.classified true "comment_only" "Acme" "Recruiter said hello")
              (Samples.env_on "2024-01-01"))
    as (doc & Hcall & Hcomments & _).
  - reflexivity.
  - reflexivity.
  - simpl. discriminate.
  - simpl. discriminate.
  - reflexivity.
  - exists doc. split; [exact Hcall|]. exact Hcomments.
Defined.

(** The end-to-end example of the specification: three classified mails
    for "Beta", applied, rejected, applied, give the rollup
    [{applied: 2, rejected: 1, next_steps: 0}]. *)
Example beta_rollup :
  let jobs := Samples.apply_all "a@x.com" "2024-01-01"
                [ Samples.classified true "applied" "Beta" "Received";
                  Samples.classified true "rejected" "Beta" "Not moving forward";
                  Samples.classified true "applied" "Beta" "Received again" ] in
  (fun doc => (Job.applied doc, Job.rejected doc, Job.next_steps doc))
    <$> (jobs ≫= (.!! ("a@x.com::beta", "a@x.com")))
  = Some (2%Z, 1%Z, 0%Z).
Proof. vm_compute. reflexivity. Qed.

(** The slug of a company only depends on its normalized form. *)
Example companySlug_normalized :
  companySlug (trim "  acme   corp  ") = companySlug (trim "Acme Corp") /\
  docId "a@x.com" (trim "Acme Corp") = "a@x.com::acme_corp".
Proof. split; reflexivity. Qed.

End Reprocessing.

(** ** Sync engine *)

Import Sync.

Section SyncFacts.
Context `{Runtime}.

Implicit Types (cfg : Config) (st : SyncState) (m : Observed) (listing : Listing).

Lemma store_message_max cfg (ownerEmail : string) st m :
  maxInternalDate (store_message cfg ownerEmail st m)
  = Z.max (maxInternalDate st) (internalDateMs m).
Proof.
  assert (Hmax : (if (internalDateMs m >? maxInternalDate st)%Z
                  then internalDateMs m else maxInternalDate st)
                 = Z.max (maxInternalDate st) (internalDateMs m)).
  { destruct (Z.gtb_spec (internalDateMs m) (maxInternalDate st)); lia. }
  unfold store_message. fold (merged ownerEmail st m). cbv zeta.
  destruct (_ && _ && _); [|done].
  destruct (classifyEmailAndUpsert _ _ _ _ _) as [[classification jobs'] sent].
  by destruct (truthy classification).
Qed.

Lemma store_message_docs cfg (ownerEmail : string) st m :
  length (docs (store_message cfg ownerEmail st m)) = S (length (docs st)).
Proof.
  unfold store_message. fold (merged ownerEmail st m). cbv zeta.
  destruct (_ && _ && _); [|simpl; rewrite length_app; simpl; lia].
  destruct (classifyEmailAndUpsert _ _ _ _ _) as [[classification jobs'] sent].
  destruct (truthy classification); simpl; rewrite length_app; simpl; lia.
Qed.

(** C1, amended: when the read finds a stored document whose
    classification has a status, the document stored for the refetched
    message keeps the stored classification and [classifiedAt] as they
    are; its [createdAt] is the stored one when that is a non-empty
    string and the time of this fetch otherwise; the classifier is not
    invoked (no request is sent) and the rollups are left alone. *)
Theorem refetch_keeps_classification cfg (ownerEmail : string) st m
    (existing : GmailEmailDoc) :
  read_error m = None ->
  emails st !! (Gmail.id (data m), ownerEmail) = Some existing ->
  alreadyClassified existing = true ->
  let st' := store_message cfg ownerEmail st m in
  exists doc,
    emails st' !! (Gmail.id (data m), ownerEmail) = Some doc /\
    docs st' = docs st ++ [doc] /\
    Email.classification doc = Email.classification existing /\
    Email.classifiedAt doc = Email.classifiedAt existing /\
    Email.createdAt doc
      = Some (or_str (default "" (Email.createdAt existing)) (fetchedAt m)) /\
    (forall stamp, Email.createdAt existing = Some stamp -> stamp <> "" ->
       Email.createdAt doc = Email.createdAt existing) /\
    requests st' = requests st /\
    jobs st' = jobs st.
Proof.
  intros Hread Hstored Hclassified st'. subst st'. unfold store_message.
  assert (Hid : Email.id (new_doc ownerEmail m) = Gmail.id (data m))
    by apply or_str_empty.
  rewrite Hread, Hid, Hstored. cbv zeta.
  assert (Hgate : alreadyClassified (carry_forward existing (new_doc ownerEmail m)) = true)
    by exact Hclassified.
  rewrite Hgate. cbn [negb andb].
  exists (carry_forward existing (new_doc ownerEmail m)). cbn.
  split; [unfold upsert_email; cbn; by rewrite or_str_empty, lookup_insert_eq|].
  split; [done|]. split; [done|]. split; [done|]. split; [done|].
  split; [|done]. intros stamp -> Hstamp. simpl. f_equal.
  unfold or_str. by rewrite (proj2 (blank_false stamp) Hstamp).
Qed.

(** *** The running maximum and the cursor *)

Lemma foldl_store_max cfg (ownerEmail : string) (messages : list Observed) st :
  maxInternalDate (foldl (store_message cfg ownerEmail) st messages)
  = foldl Z.max (maxInternalDate st) (internalDateMs <$> messages).
Proof.
  revert st. induction messages as [|m messages IH]; intros st; simpl; [done|].
  by rewrite IH, store_message_max.
Qed.

Lemma foldl_store_docs cfg (ownerEmail : string) (messages : list Observed) st :
  length (docs (foldl (store_message cfg ownerEmail) st messages))
  = length (docs st) + length messages.
Proof.
  revert st. induction messages as [|m messages IH]; intros st; simpl; [lia|].
  rewrite IH, store_message_docs. lia.
Qed.

Lemma paginate_max cfg (ownerEmail : string) listing st :
  maxInternalDate (paginate cfg ownerEmail listing st)
  = foldl Z.max (maxInternalDate st) (internalDateMs <$> listed listing).
Proof.
  revert st. induction listing as [messages|messages token rest IH]; intros st; simpl.
  - apply foldl_store_max.
  - destruct (blank token); [apply foldl_store_max|].
    by rewrite IH, foldl_store_max, fmap_app, foldl_app.
Qed.

Lemma paginate_docs cfg (ownerEmail : string) listing st :
  length (docs (paginate cfg ownerEmail listing st))
  = length (docs st) + length (listed listing).
Proof.
  revert st. induction listing as [messages|messages token rest IH]; intros st; simpl.
  - apply foldl_store_docs.
  - destruct (blank token); [apply foldl_store_docs|].
    rewrite IH, foldl_store_docs, length_app. lia.
Qed.

Lemma foldl_max_spec (z0 : Z) (l : list Z) :
  let r := foldl Z.max z0 l in
  (z0 <= r)%Z /\ (forall z, z ∈ l -> (z <= r)%Z) /\ ((z0 < r)%Z -> r ∈ l).
Proof.
  revert z0. induction l as [|x l IH]; intros z0; simpl.
  - split; [lia|]. split; [intros z Hz; by apply elem_of_nil in Hz|lia].
  - destruct (IH (Z.max z0 x)) as (Hle & Hall & Hin).
    split; [lia|]. split.
    + intros z [->|Hz]%elem_of_cons; [lia|by apply Hall].
    + intros Hlt. destruct (decide (Z.max z0 x < foldl Z.max (Z.max z0 x) l)%Z) as [Hgt|Hngt].
      * apply elem_of_cons. right. by apply Hin.
      * apply elem_of_cons. left. lia.
Qed.

Lemma cursor_saveState (vault : StateStore.Vault) (ownerEmail : string) (ms : Z) :
  StateStore.cursor
    (StateStore.saveState vault ownerEmail {| StateStore.lastInternalDateMs := Some ms |})
    ownerEmail = ms.
Proof.
  unfold StateStore.cursor, StateStore.saveState, StateStore.loadState.
  by rewrite lookup_insert_eq.
Qed.

Lemma stored_cursor_default (vault : StateStore.Vault) (ownerEmail : string) :
  default 0%Z (stored_cursor vault ownerEmail) = StateStore.cursor vault ownerEmail.
Proof.
  unfold stored_cursor, StateStore.cursor.
  destruct (_ ≫= _) as [ms|]; [|done]. by destruct (Z.eqb_spec ms 0).
Qed.

(** C2: in an incremental run (no query override, cursor advance not
    suppressed) the vault is left as it was, or the cursor of the owner
    is set to the largest [internalDateMs] of the messages the run went
    through, and then that value is strictly above the prior cursor
    (zero when none was stored); so the stored cursor never decreases.
    A run whose listing has no messages returns [fetched = 0] and leaves
    the vault as it was. *)
Theorem cursor_only_advances cfg (emailContainer : option Emails) (oauthClient : bool)
    (jobsContainer : option Jobs) (ownerRaw : string) (env : RunEnv)
    (vault : StateStore.Vault) :
  let options := {| queryOverride := ""; skipStateUpdate := false |} in
  let run := fetchAndStoreGmailEmails cfg emailContainer oauthClient jobsContainer
               ownerRaw options env vault in
  let ownerEmail := toLowerCase (trim ownerRaw) in
  let prior := StateStore.cursor vault ownerEmail in
  let query := gmailQuery options (stored_cursor vault ownerEmail) in
  let seen := internalDateMs <$> listed (listing env query) in
  (w_vault run.2 = vault \/
   exists ms,
     w_vault run.2
       = StateStore.saveState vault ownerEmail {| StateStore.lastInternalDateMs := Some ms |} /\
     ms ∈ seen /\ (forall z, z ∈ seen -> (z <= ms)%Z) /\ (prior < ms)%Z) /\
  (prior <= StateStore.cursor (w_vault run.2) ownerEmail)%Z /\
  (listed (listing env query) = [] -> trim ownerRaw <> "" ->
   oauthClient = true \/ savedTokens env = true ->
   exists r, run.1 = inr r /\ fetched r = 0 /\ w_vault run.2 = vault).
Proof.
  intros options run ownerEmail prior query seen.
  assert (Hmain :
    (w_vault run.2 = vault \/
     exists ms,
       w_vault run.2
         = StateStore.saveState vault ownerEmail {| StateStore.lastInternalDateMs := Some ms |} /\
       ms ∈ seen /\ (forall z, z ∈ seen -> (z <= ms)%Z) /\ (prior < ms)%Z) /\
    (listed (listing env query) = [] -> trim ownerRaw <> "" ->
     oauthClient = true \/ savedTokens env = true ->
     exists r, run.1 = inr r /\ fetched r = 0 /\ w_vault run.2 = vault)).
  { subst run. unfold fetchAndStoreGmailEmails. rewrite or_str_empty.
    fold ownerEmail. cbv zeta.
    destruct (blank ownerEmail) eqn:Howner.
    { split; [by left|]. intros _ Hne _. exfalso.
      subst ownerEmail. rewrite toLowerCase_blank in Howner.
      by apply blank_false in Hne; congruence. }
    destruct emailContainer as [emails0|]; [|split; [by left|]; by eexists].
    destruct (negb oauthClient && negb (savedTokens env)) eqn:Hcreds.
    { split; [by left|]. intros _ _ Hc. exfalso.
      apply andb_true_iff in Hcreds as [?%negb_true_iff ?%negb_true_iff].
      destruct Hc; congruence. }
    change (blank (queryOverride options)) with true. cbn [andb negb].
    fold query. rewrite stored_cursor_default. fold prior.
    match goal with |- context [paginate cfg ownerEmail (listing env query) ?s] =>
      set (start := s) end.
    pose proof (paginate_max cfg ownerEmail (listing env query) start) as Hmax.
    pose proof (paginate_docs cfg ownerEmail (listing env query) start) as Hdocs.
    fold seen in Hmax. simpl in Hmax, Hdocs.
    destruct (foldl_max_spec prior seen) as (_ & Hall & Hin). rewrite <- Hmax in Hall, Hin.
    destruct (docs (paginate cfg ownerEmail (listing env query) start))
      as [|doc rest] eqn:Hfinal.
    { split; [by left|]. intros _ _ _. by eexists. }
    split.
    - cbn [snd w_vault].
      destruct (Z.gtb_spec
                  (maxInternalDate (paginate cfg ownerEmail (listing env query) start))
                  prior) as [Hgt|Hle]; [|by left].
      right. eexists. split; [reflexivity|]. split; [apply Hin; lia|]. split; [done|lia].
    - intros Hnone. rewrite Hnone in Hdocs. simpl in Hdocs. lia. }
  destruct Hmain as [Hvault Hempty]. split; [done|]. split; [|done].
  destruct Hvault as [-> | (ms & -> & _ & _ & Hlt)]; [lia|].
  rewrite cursor_saveState. lia.
Qed.

(** *** Runs without an API key *)

Lemma store_message_no_key cfg (ownerEmail : string) st m :
  no_api_key cfg = true ->
  store_message cfg ownerEmail st m
  = {| emails := upsert_email (merged ownerEmail st m) (emails st);
       jobs := jobs st; requests := requests st;
       maxInternalDate := if (internalDateMs m >? maxInternalDate st)%Z
                          then internalDateMs m else maxInternalDate st;
       docs := docs st ++ [merged ownerEmail st m] |}.
Proof.
  intros Hkey. unfold store_message. fold (merged ownerEmail st m). cbv zeta.
  by rewrite Hkey, andb_false_r.
Qed.

Lemma merged_key (ownerEmail : string) st m :
  (Email.id (merged ownerEmail st m), Email.owner (merged ownerEmail st m))
  = (Email.id (new_doc ownerEmail m), ownerEmail).
Proof.
  unfold merged. cbv zeta. destruct (read_error m); [done|].
  by destruct (emails st !! _).
Qed.

Lemma merged_classification (ownerEmail : string) st m :
  Email.classification (merged ownerEmail st m) = None \/
  exists existing,
    emails st !! (Email.id (new_doc ownerEmail m), ownerEmail) = Some existing /\
    Email.classification existing = Email.classification (merged ownerEmail st m).
Proof.
  unfold merged. cbv zeta. destruct (read_error m); [by left|].
  destruct (emails st !! _) as [existing|] eqn:Hstored; [|by left].
  right. by exists existing.
Qed.

Lemma store_message_quiet cfg (ownerEmail : string) (before : Emails) st0 st m :
  no_api_key cfg = true ->
  quiet before st0 st -> quiet before st0 (store_message cfg ownerEmail st m).
Proof.
  intros Hkey (Hjobs & Hreq & Hkept). rewrite store_message_no_key by done.
  split; [done|]. split; [done|]. simpl.
  intros k doc. unfold upsert_email. rewrite merged_key, lookup_insert.
  case_decide as Hk; [|apply Hkept].
  intros [= <-]. destruct (merged_classification ownerEmail st m)
    as [Hnone|(existing & Hstored & Hsame)]; [by left|].
  rewrite <- Hsame. subst k. destruct (Hkept _ _ Hstored) as [Hn|Hold]; [by left|by right].
Qed.

Lemma foldl_store_quiet cfg (ownerEmail : string) (before : Emails) st0
    (messages : list Observed) st :
  no_api_key cfg = true ->
  quiet before st0 st ->
  quiet before st0 (foldl (store_message cfg ownerEmail) st messages).
Proof.
  intros Hkey. revert st. induction messages as [|m messages IH]; intros st Hq; [done|].
  simpl. apply IH. by apply store_message_quiet.
Qed.

Lemma paginate_quiet cfg (ownerEmail : string) (before : Emails) st0 listing st :
  no_api_key cfg = true ->
  quiet before st0 st -> quiet before st0 (paginate cfg ownerEmail listing st).
Proof.
  intros Hkey. revert st.
  induction listing as [messages|messages token rest IH]; intros st Hq; simpl.
  - by apply foldl_store_quiet.
  - destruct (blank token); [by apply foldl_store_quiet|].
    apply IH. by apply foldl_store_quiet.
Qed.

(** C10: without an API key, [classifyEmail] returns null for every
    message and sends no request; a sync run then sends no request,
    leaves the rollups exactly as they were, and no stored message
    carries a classification that it did not carry before the run. *)
Theorem no_api_key_no_classification cfg (emailContainer : option Emails)
    (oauthClient : bool) (jobsContainer : option Jobs) (ownerRaw : string)
    (options : Options) (env : RunEnv) (vault : StateStore.Vault) :
  no_api_key cfg = true ->
  (forall emailDoc answer, classifyEmail cfg emailDoc answer = (JNull, [])) /\
  let run := fetchAndStoreGmailEmails cfg emailContainer oauthClient jobsContainer
               ownerRaw options env vault in
  w_requests run.2 = [] /\
  w_jobs run.2 = jobsContainer /\
  (forall before after, emailContainer = Some before -> w_emails run.2 = Some after ->
     no_new_classification before after).
Proof.
  intros Hkey. split; [intros emailDoc answer; unfold classifyEmail; by rewrite Hkey|].
  unfold fetchAndStoreGmailEmails. cbv zeta.
  destruct (blank _); [by split; [|split; [|intros ? ? -> [= <-] k doc ?; right; eauto]]|].
  destruct emailContainer as [emails0|]; [|by split; [|split; [|intros ? ? [=]]]].
  destruct (_ && _); [by split; [|split; [|intros ? ? [= <-] [= <-] k doc ?; right; eauto]]|].
  match goal with |- context [paginate cfg ?o ?l ?s] =>
    destruct (paginate_quiet cfg o emails0 s l s Hkey) as (Hjobs & Hreq & Hkept);
      [|set (final := paginate cfg o l s) in *]
  end.
  { split; [done|]. split; [done|]. intros k doc ?. right. eauto. }
  destruct (docs final); simpl;
    (split; [done|]; split; [done|]; by intros ? ? [= <-] [= <-]).
Qed.

End SyncFacts.

Lemma refetch_keeps_classification_witness :
  let st' := store_message (H := Samples.sample_runtime) Samples.config "a@x.com"
               Samples.state_with_m1 Samples.refetch_m1 in
  exists doc,
    emails st' !! ("m1", "a@x.com") = Some doc /\
    Email.classification doc = Email.classification Samples.stored_m1 /\
    requests st' = [].
Proof.
  destruct (refetch_keeps_classification (H := Samples.sample_runtime) Samples.config
              "a@x.com" Samples.state_with_m1 Samples.refetch_m1 Samples.stored_m1)
    as (doc & Hdoc & _ & Hclass & _ & _ & _ & Hreq & _).
  - reflexivity.
  - vm_compute. reflexivity.
  - reflexivity.
  - exists doc. split; [exact Hdoc|]. split; [exact Hclass|]. exact Hreq.
Defined.

(** C1 as stated: the stored document of a first fetch has no [createdAt];
    after the refetch the stored document has one, the time of the
    refetch. *)
Lemma refetch_sets_createdAt :
  let st' := store_message (H := Samples.sample_runtime) Samples.config "a@x.com"
               Samples.state_with_m1 Samples.refetch_m1 in
  emails Samples.state_with_m1 !! ("m1", "a@x.com") = Some Samples.stored_m1 /\
  alreadyClassified Samples.stored_m1 = true /\
  Email.createdAt Samples.stored_m1 = None /\
  (Email.createdAt <$> emails st' !! ("m1", "a@x.com"))
    = Some (Some "2024-02-01T08:00:00.000Z").
Proof. vm_compute. repeat split; reflexivity. Qed.

Lemma cursor_only_advances_witness :
  exists r,
    (fetchAndStoreGmailEmails (H := Samples.sample_runtime) Samples.config (Some ∅) false
       (Some ∅) "a@x.com" Samples.incremental Samples.no_messages ∅).1 = inr r /\
    fetched r = 0 /\
    w_vault (fetchAndStoreGmailEmails (H := Samples.sample_runtime) Samples.config (Some ∅)
               false (Some ∅) "a@x.com" Samples.incremental Samples.no_messages ∅).2 = ∅.
Proof.
  apply (proj2 (proj2 (cursor_only_advances (H := Samples.sample_runtime) Samples.config
                         (Some ∅) false (Some ∅) "a@x.com" Samples.no_messages ∅))).
  - reflexivity.
  - simpl. discriminate.
  - right. reflexivity.
Defined.

(** The end-to-end example of the specification: no prior cursor and two
    remote messages with timestamps 100000 and 200000 leave the cursor at
    200000 and two stored documents. *)
Example two_messages_advance_cursor :
  let run := fetchAndStoreGmailEmails (H := Samples.sample_runtime) Samples.config (Some ∅)
               false (Some ∅) "a@x.com" Samples.incremental Samples.two_messages ∅ in
  run.1 = inr {| fetched := 2; owner := Some "a@x.com" |} /\
  StateStore.cursor (w_vault run.2) "a@x.com" = 200000%Z /\
  (size <$> w_emails run.2) = Some 2.
Proof. vm_compute. repeat split; reflexivity. Qed.

Lemma no_api_key_no_classification_witness :
  let run := fetchAndStoreGmailEmails (H := Samples.sample_runtime)
               Samples.config_without_key (Some ∅) false (Some ∅) "a@x.com"
               Samples.incremental Samples.two_messages ∅ in
  w_requests run.2 = [] /\ w_jobs run.2 = Some ∅.
Proof.
  pose proof (no_api_key_no_classification (H := Samples.sample_runtime)
                Samples.config_without_key (Some ∅) false (Some ∅) "a@x.com"
                Samples.incremental Samples.two_messages ∅ eq_refl)
    as (_ & Hreq & Hjobs & _).
  split; [exact Hreq|exact Hjobs].
Defined.

(* ================================================================== *)
(** * Further properties of the code *)
(* ================================================================== *)

(** ** HTML escaping *)

Import Html.

Lemma app_cons (a : ascii) (s t : string) : String a s +:+ t = String a (s +:+ t).
Proof. reflexivity. Qed.

Lemma occurs_app (c : ascii) (s t : string) :
  occurs c (s +:+ t) = occurs c s || occurs c t.
Proof.
  induction s as [|a s IH]; [done|].
  rewrite app_cons. simpl. by rewrite IH, orb_assoc.
Qed.

(** A character occurs after a replacement when it came with the
    replacement text or was there before and is not the replaced one. *)
Lemma occurs_replace_char (d c : ascii) (r s : string) :
  occurs d (replace_char c r s)
  = (occurs c s && occurs d r) || (negb (bool_decide (d = c)) && occurs d s).
Proof.
  induction s as [|a s IH]; simpl; [by rewrite andb_false_r|].
  destruct (decide (a = c)) as [->|Hac].
  - rewrite occurs_app, IH. rewrite (bool_decide_eq_true_2 (c = c)) by done.
    cbn [orb andb]. destruct (decide (d = c)) as [->|Hdc].
    + rewrite (bool_decide_eq_true_2 (c = c)) by done.
      destruct (occurs c r), (occurs c s); done.
    + rewrite (bool_decide_eq_false_2 (d = c)), (bool_decide_eq_false_2 (c = d))
        by congruence.
      destruct (occurs d r), (occurs c s), (occurs d s); done.
  - cbn [occurs]. rewrite IH, (bool_decide_eq_false_2 (a = c)) by done. cbn [orb].
    destruct (decide (a = d)) as [->|Had].
    + rewrite (bool_decide_eq_true_2 (d = d)), (bool_decide_eq_false_2 (d = c)) by done.
      cbn [negb andb orb]. by rewrite orb_true_r.
    + by rewrite (bool_decide_eq_false_2 (a = d)) by done.
Qed.

Lemma replace_char_absent (c : ascii) (r s : string) :
  occurs c s = false -> replace_char c r s = s.
Proof.
  induction s as [|a s IH]; [done|]. simpl.
  intros [Hac Hs]%orb_false_iff. apply bool_decide_eq_false in Hac.
  rewrite decide_False by done. by rewrite IH.
Qed.

(** X1: whatever the text, the escaped text holds no [<], no [>], no
    double quote and no single quote. *)
Theorem escapeHtml_no_markup (str : string) (d : ascii) :
  d ∈ markup -> occurs d (escapeHtml str) = false.
Proof.
  unfold markup, escapeHtml. rewrite !elem_of_cons, elem_of_nil.
  intros [-> | [-> | [-> | [-> | []]]]]; rewrite !occurs_replace_char;
    cbn [occurs]; rewrite ?andb_false_r, ?andb_false_l, ?orb_false_r; reflexivity.
Qed.

Lemma escapeHtml_no_markup_witness :
  occurs "<" (escapeHtml "<b>Tom & Jerry's</b>") = false.
Proof. apply escapeHtml_no_markup. unfold markup. set_solver. Defined.

(** X2: a text without any of the five special characters is returned as
    it is. *)
Theorem escapeHtml_plain (str : string) :
  (forall d, d ∈ ("&"%char :: markup) -> occurs d str = false) ->
  escapeHtml str = str.
Proof.
  intros Hplain. unfold escapeHtml, markup in *.
  rewrite (replace_char_absent "&") by (apply Hplain; set_solver).
  rewrite (replace_char_absent "<") by (apply Hplain; set_solver).
  rewrite (replace_char_absent ">") by (apply Hplain; set_solver).
  rewrite (replace_char_absent double_quote) by (apply Hplain; set_solver).
  rewrite (replace_char_absent "'") by (apply Hplain; set_solver).
  reflexivity.
Qed.

Lemma escapeHtml_plain_witness : escapeHtml "Application received" = "Application received".
Proof.
  apply escapeHtml_plain. unfold markup.
  intros d. rewrite !elem_of_cons, elem_of_nil.
  intros [-> | [-> | [-> | [-> | [-> | []]]]]]; reflexivity.
Defined.

(** ** Session tokens *)

Import Session.

Lemma split_on_absent (c : ascii) (s : string) :
  occurs c s = false -> split_on c s = [s].
Proof.
  induction s as [|a s IH]; [done|]. simpl.
  intros [Hac Hs]%orb_false_iff. apply bool_decide_eq_false in Hac.
  rewrite decide_False by done. by rewrite IH.
Qed.

Lemma split_on_separator (c : ascii) (s t : string) :
  occurs c s = false -> split_on c (s +:+ String c t) = s :: split_on c t.
Proof.
  induction s as [|a s IH]; intros Hs.
  - change ("" +:+ String c t) with (String c t). simpl. by rewrite decide_True.
  - rewrite app_cons. simpl in *. apply orb_false_iff in Hs as [Hac Hs].
    apply bool_decide_eq_false in Hac. rewrite decide_False by done. by rewrite IH.
Qed.

Section Sessions.
Context `{Codec}.

(** X3: a token is only accepted when its bytes before the first dot are
    signed by the bytes between the first and the second dot, the payload
    is what those first bytes decode to, and the payload has no expiry
    ([exp] is 0) or has not expired. *)
Theorem verifySessionToken_sound (token : string) (now : Z) (payload : SessionPayload) :
  verifySessionToken token now = Some payload ->
  exists data signature rest,
    split_on "." token = data :: signature :: rest /\
    data <> "" /\
    signature = signSessionData data /\
    decodeSessionPayload data = Some payload /\
    (exp payload = 0 \/ now <= exp payload)%Z.
Proof.
  unfold verifySessionToken. destruct (blank token); [done|].
  destruct (split_on "." token) as [|data [|signature rest]]; try done.
  destruct (blank data) eqn:Hdata; [done|]. destruct (blank signature); [done|].
  cbn [orb]. destruct (_ =? _); [|done]. cbn [negb].
  case_bool_decide as Hsig; [|done]. cbn [negb].
  destruct (decodeSessionPayload data) as [decoded|] eqn:Hdecode; [|done].
  destruct (negb (exp decoded =? 0)%Z && (exp decoded <? now)%Z) eqn:Hexp; [done|].
  intros [= <-]. exists data, signature, rest.
  split; [done|]. split; [by apply blank_false|]. split; [done|]. split; [done|].
  apply andb_false_iff in Hexp as [Hzero|Hlate].
  - left. apply negb_false_iff in Hzero. lia.
  - right. lia.
Qed.

(** X4: a token made by [createSessionToken] at time [t0] is accepted
    with its payload up to and including its expiry [t0 + duration] and
    rejected afterwards, provided the encoded payload and its signature
    are non-empty and hold no dot (as base64url text does) and the payload
    decodes back. *)
Theorem createSessionToken_valid_until_expiry (SESSION_DURATION_MS : Z) (user : User)
    (t0 : Z) (stamp : string) (now : Z) :
  let payload := new_payload SESSION_DURATION_MS user t0 stamp in
  let data := encodeSessionPayload payload in
  data <> "" -> occurs "." data = false ->
  signSessionData data <> "" -> occurs "." (signSessionData data) = false ->
  decodeSessionPayload data = Some payload ->
  (t0 + SESSION_DURATION_MS <> 0)%Z ->
  verifySessionToken (createSessionToken SESSION_DURATION_MS user t0 stamp) now
  = if (now <=? t0 + SESSION_DURATION_MS)%Z then Some payload else None.
Proof.
  intros payload data Hdata Hdot Hsig Hsigdot Hdecode Hexp.
  unfold verifySessionToken, createSessionToken. fold payload data.
  assert (blank (data +:+ "." +:+ signSessionData data) = false) as ->.
  { apply blank_false. destruct data; [done|]. by rewrite app_cons. }
  change ("." +:+ signSessionData data) with (String "." (signSessionData data)).
  rewrite split_on_separator, split_on_absent by done.
  rewrite (proj2 (blank_false data)), (proj2 (blank_false (signSessionData data))) by done.
  cbn [orb]. rewrite Nat.eqb_refl, bool_decide_eq_true_2 by done. cbn [negb].
  rewrite Hdecode. change (exp payload) with (t0 + SESSION_DURATION_MS)%Z.
  destruct (Z.eqb_spec (t0 + SESSION_DURATION_MS) 0); [done|]. cbn [negb andb].
  destruct (Z.ltb_spec (t0 + SESSION_DURATION_MS) now), (Z.leb_spec now (t0 + SESSION_DURATION_MS));
    try done; lia.
Qed.

End Sessions.

Lemma verifySessionToken_sound_witness :
  exists data signature rest,
    split_on "." "eyJuYW1lIjoiQWRhIn0.c2lnbmF0dXJl" = data :: signature :: rest /\
    data <> "" /\
    signature = signSessionData (Codec := Cases.one_payload_codec) data /\
    decodeSessionPayload (Codec := Cases.one_payload_codec) data = Some Cases.ada_payload /\
    (exp Cases.ada_payload = 0 \/ 5000 <= exp Cases.ada_payload)%Z.
Proof.
  apply (verifySessionToken_sound (H := Cases.one_payload_codec)
           "eyJuYW1lIjoiQWRhIn0.c2lnbmF0dXJl" 5000 Cases.ada_payload).
  reflexivity.
Defined.

Lemma createSessionToken_valid_until_expiry_witness :
  verifySessionToken (H := Cases.one_payload_codec)
    (createSessionToken (H := Cases.one_payload_codec) Cases.ten_days Cases.ada 1000
       "2024-01-01T00:00:00.000Z") 5000
  = Some Cases.ada_payload.
Proof.
  apply (createSessionToken_valid_until_expiry (H := Cases.one_payload_codec)
           Cases.ten_days Cases.ada 1000 "2024-01-01T00:00:00.000Z" 5000).
  - simpl. discriminate.
  - reflexivity.
  - simpl. discriminate.
  - reflexivity.
  - reflexivity.
  - vm_compute. discriminate.
Defined.

(** ** The window of the scheduled sweep *)

Import Schedule.



Lemma offsetString_of_name (parts : DateParts) (sign : ascii) (rest : string) :
  sign = "-"%char \/ sign = "+"%char ->
  timeZoneName parts = Some ("GMT" +:+ String sign rest) ->
  offsetString parts
  = String sign (pad2 (or_str (default "" (split_on ":" rest !! 0)) "0") +:+ ":"
                 +:+ pad2 (or_str (default "" (split_on ":" rest !! 1)) "0")).
Proof. unfold offsetString. intros [-> | ->] ->; reflexivity. Qed.

(** X6: the offset text of a zone name [GMT], a sign, the hours and
    possibly a colon and the minutes is the sign, the hours padded to two
    characters, a colon and the minutes padded to two characters ([00]
    without minutes); a missing zone name counts as [GMT-05:00]. *)
Theorem offsetString_normalizes (parts : DateParts) (sign : ascii) (hours minutes : string) :
  sign = "-"%char \/ sign = "+"%char ->
  occurs ":" hours = false -> occurs ":" minutes = false ->
  (timeZoneName parts = Some ("GMT" +:+ String sign hours) ->
   offsetString parts = String sign (pad2 (or_str hours "0") +:+ ":00")) /\
  (timeZoneName parts = Some ("GMT" +:+ String sign (hours +:+ String ":" minutes)) ->
   offsetString parts
   = String sign (pad2 (or_str hours "0") +:+ ":" +:+ pad2 (or_str minutes "0"))) /\
  (timeZoneName parts = None -> offsetString parts = "-05:00").
Proof.
  intros Hsign Hhours Hminutes.
  split; [|split].
  - intros Hname. rewrite (offsetString_of_name _ _ _ Hsign Hname).
    by rewrite split_on_absent.
  - intros Hname. rewrite (offsetString_of_name _ _ _ Hsign Hname).
    by rewrite split_on_separator, split_on_absent.
  - unfold offsetString. by intros ->.
Qed.

Lemma offsetString_normalizes_witness :
  offsetString Cases.winter_day = "-05:00".
Proof.
  apply (proj1 (offsetString_normalizes Cases.winter_day "-" "5" ""
                  (or_introl eq_refl) eq_refl eq_refl)).
  reflexivity.
Defined.

(** ** More on the classifier transport *)

Section CallChatMore.
Context `{Runtime}.



Lemma sum_take_le (k : nat) (l : list Z) :
  Forall (fun d => 0 <= d)%Z l -> (foldr Z.add 0 (take k l) <= foldr Z.add 0 l)%Z.
Proof.
  intros Hl. revert k. induction Hl as [|d l Hd _ IH]; intros [|k]; simpl; try lia.
  - pose proof (IH 0). simpl in *. lia.
  - pose proof (IH k). lia.
Qed.

Lemma sum_take_nonneg (k : nat) (l : list Z) :
  Forall (fun d => 0 <= d)%Z l -> (0 <= foldr Z.add 0 (take k l))%Z.
Proof.
  intros Hl. revert k. induction Hl as [|d l Hd _ IH]; intros [|k]; simpl; try lia.
  pose proof (IH k). lia.
Qed.


(** X8: whatever the model and the answers, a call sends at most five
    requests and sleeps at most 6000 milliseconds in total. *)
Theorem callChat_bounded (OPENAI_API_KEY : option string) (model : string)
    (transport : nat -> FetchOutcome) :
  let r := callChat OPENAI_API_KEY model transport in
  sent r <= 5 /\ (0 <= foldr Z.add 0 (slept r) <= 6000)%Z.
Proof.
  intros r. subst r. unfold callChat.
  destruct (blank (default "" OPENAI_API_KEY)); [simpl; lia|].
  set (policy := default defaultPolicy (modelPolicies model)).
  destruct (attempt_loop_inv policy transport _ eq_refl
              (length (backoffMs policy) + 1) 0 None [])
    as (Hsent & Hslept & _); [lia|lia|done|].
  fold (callChat_with policy transport) in *. rewrite Hslept.
  assert (Hladder : length (backoffMs policy) <= 4 /\
                    Forall (fun d => 0 <= d)%Z (backoffMs policy) /\
                    (foldr Z.add 0 (backoffMs policy) <= 6000)%Z).
  { subst policy. unfold modelPolicies, defaultPolicy.
    repeat case_decide; simpl; (split; [lia|]; split; [|lia]);
      repeat constructor; lia. }
  destruct Hladder as (Hlen & Hpos & Hsum).
  split; [lia|]. split.
  - by apply sum_take_nonneg.
  - pose proof (sum_take_le (sent (callChat_with policy transport) - 1) _ Hpos). lia.
Qed.


End CallChatMore.



(** ** More on the aggregator *)

Section AggregatorMore.

Implicit Types (c : ClassificationResult) (jobs : Jobs) (env : UpsertEnv).

(** Either the container is left as it was and no rollup is returned, or
    the returned rollup, stamped with today's date, is the one upserted. *)
Lemma upsertJobStatus_store (jobsContainer : option Jobs) (ownerRaw : string)
    (classification : Json) env :
  let result := upsertJobStatus jobsContainer ownerRaw classification env in
  (result.2 = jobsContainer /\ (result.1 = Return None \/ result.1 = Throw)) \/
  (exists jobs doc,
     jobsContainer = Some jobs /\ result.1 = Return (Some doc) /\
     result.2 = Some (upsert_job doc jobs) /\ Job.last_updated doc = today env).
Proof.
  unfold upsertJobStatus. destruct jobsContainer as [jobs|]; [|left; auto].
  destruct (negb (truthy classification)); [left; auto|].
  destruct (string_or_empty _) as [company|]; [|left; auto].
  cbv zeta. destruct (blank (trim company)); [left; auto|].
  destruct (blank (toLowerCase _)); [left; auto|].
  destruct (_ || _ || _); [left; auto|].
  destruct (read_fails env); [left; auto|].
  destruct (is_string "applied" _); [right; eauto 10|].
  destruct (is_string "rejected" _); [right; eauto 10|].
  destruct (is_string "next_steps" _); [right; eauto 10|].
  destruct (note_of _); [right; eauto 10|left; auto].
Qed.

(** X10: for every JSON value handed in as classification,
    [upsertJobStatus] writes only when it returns a rollup, and then it
    upserts exactly the rollup it returns, stamped with today's date; when
    it returns null or throws, the container is as it was. *)
Theorem upsertJobStatus_writes_what_it_returns (jobsContainer : option Jobs)
    (ownerRaw : string) (classification : Json) env :
  let result := upsertJobStatus jobsContainer ownerRaw classification env in
  match result.1 with
  | Return (Some doc) =>
      exists jobs, jobsContainer = Some jobs /\
        result.2 = Some (<[(Job.id doc, Job.owner doc) := doc]> jobs) /\
        Job.last_updated doc = today env
  | Return None | Throw => result.2 = jobsContainer
  end.
Proof.
  intros result.
  destruct (upsertJobStatus_store jobsContainer ownerRaw classification env)
    as [[Hsame [Hout|Hout]] | (jobs & doc & -> & Hout & Hwrite & Hday)];
    fold result in Hsame, Hout || fold result in Hout, Hwrite; rewrite Hout; eauto.
Qed.

(** X11: for every JSON value handed in as classification, no rollup is
    ever removed, at most one is added, and a container in which every
    rollup sits under its own id and owner stays such a container. *)
Theorem upsertJobStatus_keeps_rollups jobs (ownerRaw : string) (classification : Json) env :
  exists jobs',
    (upsertJobStatus (Some jobs) ownerRaw classification env).2 = Some jobs' /\
    dom jobs ⊆ dom jobs' /\
    size jobs' <= S (size jobs) /\
    (jobs_wf jobs -> jobs_wf jobs').
Proof.
  destruct (upsertJobStatus_store (Some jobs) ownerRaw classification env)
    as [[Hsame _] | (jobs0 & doc & [= <-] & _ & Hwrite & _)].
  - exists jobs. split; [done|]. split; [done|]. split; [lia|done].
  - exists (upsert_job doc jobs). split; [done|]. unfold upsert_job.
    split; [rewrite dom_insert; set_solver|]. split.
    + destruct (jobs !! (Job.id doc, Job.owner doc)) eqn:Hk.
      * rewrite map_size_insert_Some by eauto. lia.
      * rewrite map_size_insert_None by done. lia.
    + apply upsert_job_wf.
Qed.

Lemma upsertJobStatus_keeps_rollups_witness :
  exists jobs',
    (upsertJobStatus (Some ∅) "a@x.com" (JObj [("company_name", JNum 7)])
       (Samples.env_on "2024-01-01")).2 = Some jobs' /\
    jobs_wf jobs'.
Proof.
  destruct (upsertJobStatus_keeps_rollups ∅ "a@x.com" (JObj [("company_name", JNum 7)])
              (Samples.env_on "2024-01-01")) as (jobs' & Hrun & _ & _ & Hwf).
  exists jobs'. split; [exact Hrun|]. apply Hwf.
  intros k doc. rewrite lookup_empty. discriminate.
Defined.

(** X12: a call for a classification of the declared interface touches at
    most the rollup of its owner and company: every other rollup of a
    well-keyed container is read back as before. *)
Theorem upsertJobStatus_frame jobs (ownerRaw : string) c env (k : string * string) :
  jobs_wf jobs -> k <> rollup_key ownerRaw c ->
  exists jobs',
    (upsertJobStatus (Some jobs) ownerRaw (to_json c) env).2 = Some jobs' /\
    jobs' !! k = jobs !! k.
Proof.
  intros Hwf Hk. rewrite upsertJobStatus_typed.
  destruct (blank (company_of c)); [by exists jobs|].
  destruct (blank (owner_of ownerRaw)); [by exists jobs|].
  destruct (_ || _ || _); [by exists jobs|].
  destruct (read_fails env); [by exists jobs|].
  pose proof (rollup_before_key jobs ownerRaw c env Hwf) as Hkey. simpl in Hkey.
  cbv zeta. eexists. split; [reflexivity|]. unfold upsert_job.
  apply lookup_insert_ne.
  destruct (bool_decide (status c = "applied")); [simpl; congruence|].
  destruct (bool_decide (status c = "rejected")); [simpl; congruence|].
  destruct (bool_decide (status c = "next_steps")); simpl; congruence.
Qed.

Lemma upgrade_comments_legacy (day : string) (texts : list string) :
  upgrade_comments day (Some (Job.LegacyNote <$> texts))
  = (fun text => Job.Entry day (JStr text)) <$> texts.
Proof.
  destruct texts as [|text texts]; [done|]. simpl. f_equal.
  by rewrite <- list_fmap_compose.
Qed.

(** X13: the first write to a legacy rollup, whose comments are plain
    strings, turns every one of them into an entry with today's date and
    the string as note, in the same order, before the counters or the
    comments are updated. *)
Theorem upsertJobStatus_upgrades_legacy_comments jobs (ownerRaw : string) c env
    (stored : JobDoc) (texts : list string) :
  jobs_wf jobs -> is_job_related c = true -> actionable (status c) ->
  trim (company_name c) <> "" -> trim ownerRaw <> "" -> read_fails env = false ->
  jobs !! rollup_key ownerRaw c = Some stored ->
  Job.comments stored = Some (Job.LegacyNote <$> texts) ->
  exists doc,
    (upsertJobStatus (Some jobs) ownerRaw (to_json c) env).1 = Return (Some doc) /\
    Job.comments doc
    = Some (((fun text => Job.Entry (today env) (JStr text)) <$> texts)
            ++ (if bool_decide (status c = "comment_only")
                then [Job.Entry (today env) (JStr (slice0 280 (summary c)))] else [])).
Proof.
  intros Hwf Hjob Hact Hcompany Howner Hread Hstored Hlegacy.
  destruct (upsertJobStatus_applies jobs ownerRaw c env) as (doc & Hcall & Hdoc); try done.
  exists doc. rewrite Hcall. split; [done|]. simpl in Hdoc. rewrite Hdoc.
  unfold rollup_before. rewrite Hstored. simpl. rewrite Hlegacy, upgrade_comments_legacy.
  destruct (bool_decide (status c = "comment_only")); [done|]. by rewrite app_nil_r.
Qed.

End AggregatorMore.

Section AggregatorSequences.

Import Rollups.

Implicit Types (c : ClassificationResult) (jobs : Jobs) (env : UpsertEnv).

Lemma legacy_jobs_wf : jobs_wf Cases.legacy_jobs.
Proof.
  intros k doc. unfold Cases.legacy_jobs. rewrite lookup_singleton_Some.
  by intros [<- <-].
Qed.

Lemma upsertJobStatus_frame_witness :
  exists jobs',
    (upsertJobStatus (Some Cases.legacy_jobs) "a@x.com"
       (to_json (Samples.classified true "applied" "Beta" "Received"))
       (Samples.env_on "2024-01-01")).2 = Some jobs' /\
    jobs' !! ("a@x.com::acme", "a@x.com") = Some Cases.legacy_acme.
Proof.
  destruct (upsertJobStatus_frame Cases.legacy_jobs "a@x.com"
              (Samples.classified true "applied" "Beta" "Received")
              (Samples.env_on "2024-01-01") ("a@x.com::acme", "a@x.com"))
    as (jobs' & Hrun & Hsame).
  - exact legacy_jobs_wf.
  - vm_compute. discriminate.
  - exists jobs'. split; [exact Hrun|]. rewrite Hsame. reflexivity.
Defined.

Lemma upsertJobStatus_upgrades_legacy_comments_witness :
  exists doc,
    (upsertJobStatus (Some Cases.legacy_jobs) "a@x.com"
       (to_json (Samples.classified true "applied" "Acme" "Received"))
       (Samples.env_on "2024-01-01")).1 = Return (Some doc) /\
    Job.comments doc
    = Some [Job.Entry "2024-01-01" (JStr "sent resume");
            Job.Entry "2024-01-01" (JStr "phone screen")].
Proof.
  destruct (upsertJobStatus_upgrades_legacy_comments Cases.legacy_jobs "a@x.com"
              (Samples.classified true "applied" "Acme" "Received")
              (Samples.env_on "2024-01-01") Cases.legacy_acme
              ["sent resume"; "phone screen"])
    as (doc & Hrun & Hcomments).
  - exact legacy_jobs_wf.
  - reflexivity.
  - unfold actionable. simpl. set_solver.
  - simpl. discriminate.
  - simpl. discriminate.
  - reflexivity.
  - reflexivity.
  - reflexivity.
  - exists doc. split; [exact Hrun|]. exact Hcomments.
Defined.

Lemma count_status_cons (st : string) (call : ClassificationResult * UpsertEnv) calls :
  count_status st (call :: calls)
  = ((if bool_decide (status call.1 = st) then 1 else 0) + count_status st calls)%Z.
Proof.
  unfold count_status. rewrite filter_cons.
  destruct (decide (status call.1 = st)) as [Hst|Hst].
  - rewrite (bool_decide_eq_true_2 _ Hst). simpl length. lia.
  - rewrite (bool_decide_eq_false_2 _ Hst). lia.
Qed.

(** X14: the counters are additive over the mails of one company. When
    every call of a list is applied (job related, actionable status, read
    succeeding) and goes to the same rollup, the rollup ends with each
    counter raised by the number of calls carrying that status and with
    one more comment per [comment_only] call, counting from zero when the
    rollup did not exist; every other rollup is as before. *)
Theorem upsert_all_adds_up jobs (ownerRaw : string)
    (calls : list (ClassificationResult * UpsertEnv)) (key : string * string) :
  jobs_wf jobs -> trim ownerRaw <> "" ->
  Forall applies calls ->
  Forall (fun call => rollup_key ownerRaw call.1 = key) calls ->
  exists jobs',
    upsert_all jobs ownerRaw calls = Some jobs' /\
    counter Job.applied jobs' key
      = (counter Job.applied jobs key + count_status "applied" calls)%Z /\
    counter Job.rejected jobs' key
      = (counter Job.rejected jobs key + count_status "rejected" calls)%Z /\
    counter Job.next_steps jobs' key
      = (counter Job.next_steps jobs key + count_status "next_steps" calls)%Z /\
    comment_count jobs' key
      = (comment_count jobs key + count_status "comment_only" calls)%Z /\
    (forall k, k <> key -> jobs' !! k = jobs !! k).
Proof.
  intros Hwf Howner Happlies Hkeys. revert jobs Hwf.
  induction calls as [|call calls IH]; intros jobs Hwf.
  - exists jobs. unfold count_status. simpl. rewrite !Z.add_0_r. by repeat split.
  - apply Forall_cons in Happlies as [(Hjob & Hact & Hcompany & Hread) Happlies].
    apply Forall_cons in Hkeys as [Hkey Hkeys].
    destruct (upsertJobStatus_applies jobs ownerRaw call.1 call.2)
      as (doc & Hcall & Hdoc); try done.
    simpl in Hdoc. rewrite Hkey in Hcall.
    assert (Hdockey : (Job.id doc, Job.owner doc) = key).
    { rewrite Hdoc. simpl. rewrite <- Hkey. by apply rollup_before_key. }
    assert (Hwf1 : jobs_wf (<[key := doc]> jobs)).
    { rewrite <- Hdockey. by apply upsert_job_wf. }
    destruct (IH Happlies Hkeys _ Hwf1)
      as (jobs' & Hrest & Happlied & Hrejected & Hnext & Hcomments & Hframe).
    exists jobs'. split.
    { unfold upsert_all in *. cbn [foldl]. by rewrite Hcall. }
    rewrite !count_status_cons, Happlied, Hrejected, Hnext, Hcomments.
    unfold counter, comment_count. rewrite !lookup_insert_eq. simpl.
    assert (Hbefore : rollup_before jobs ownerRaw call.1 call.2
                      = default (fresh_doc (owner_of ownerRaw) (company_of call.1)
                                           (today call.2)) (jobs !! key)).
    { unfold rollup_before. by rewrite Hkey. }
    rewrite Hbefore in Hdoc. rewrite Hdoc. simpl.
    split; [destruct (jobs !! key); simpl; lia|].
    split; [destruct (jobs !! key); simpl; lia|].
    split; [destruct (jobs !! key); simpl; lia|].
    split.
    + destruct (bool_decide (status call.1 = "comment_only"));
        rewrite ?length_app, upgrade_comments_length;
        destruct (jobs !! key); simpl; lia.
    + intros k Hk. rewrite Hframe by done. by apply lookup_insert_ne.
Qed.

Lemma upsert_all_adds_up_witness :
  exists jobs',
    upsert_all ∅ "a@x.com" Cases.acme_calls = Some jobs' /\
    counter Job.applied jobs' ("a@x.com::acme", "a@x.com") = 2%Z /\
    comment_count jobs' ("a@x.com::acme", "a@x.com") = 1%Z.
Proof.
  destruct (upsert_all_adds_up ∅ "a@x.com" Cases.acme_calls ("a@x.com::acme", "a@x.com"))
    as (jobs' & Hrun & Happlied & _ & _ & Hcomments & _).
  - intros k doc. rewrite lookup_empty. discriminate.
  - simpl. discriminate.
  - unfold Cases.acme_calls, applies, actionable.
    repeat apply Forall_cons_2; try apply Forall_nil_2; simpl;
      (split; [reflexivity|split; [set_solver|split; [discriminate|reflexivity]]]).
  - unfold Cases.acme_calls.
    repeat apply Forall_cons_2; try apply Forall_nil_2; reflexivity.
  - exists jobs'. split; [exact Hrun|]. split; [exact Happlied|exact Hcomments].
Defined.

End AggregatorSequences.

(** ** More on the loop over the listed messages *)

Section StoreMessage.
Context `{Runtime}.

Implicit Types (cfg : Config) (st : SyncState) (m : Observed) (c : ClassificationResult).

(** The three ways the classification gate stays shut. *)
Lemma store_message_shut cfg (ownerEmail : string) st m :
  alreadyClassified (merged ownerEmail st m) = true \/ jobs st = None \/
  no_api_key cfg = true ->
  store_message cfg ownerEmail st m
  = {| emails := upsert_email (merged ownerEmail st m) (emails st);
       jobs := jobs st; requests := requests st;
       maxInternalDate := if (internalDateMs m >? maxInternalDate st)%Z
                          then internalDateMs m else maxInternalDate st;
       docs := docs st ++ [merged ownerEmail st m] |}.
Proof.
  intros Hshut. unfold store_message. fold (merged ownerEmail st m). cbv zeta.
  destruct Hshut as [-> | [-> | ->]]; [done| |by rewrite andb_false_r].
  rewrite bool_decide_eq_false_2, andb_false_r; [done|]. by intros [? ?].
Qed.

Lemma merged_owner (ownerEmail : string) st m :
  Email.owner (merged ownerEmail st m) = ownerEmail.
Proof. pose proof (merged_key ownerEmail st m) as Hkey. congruence. Qed.

Lemma merged_id (ownerEmail : string) st m :
  Email.id (merged ownerEmail st m) = Gmail.id (data m).
Proof.
  pose proof (merged_key ownerEmail st m) as Hkey.
  assert (Hid : Email.id (merged ownerEmail st m) = Email.id (new_doc ownerEmail m))
    by congruence.
  rewrite Hid. simpl. apply or_str_empty.
Qed.

(** With the gate open, the message goes through the classifier once and,
    when the result is truthy, through the aggregator. *)
Lemma store_message_open cfg (ownerEmail : string) st m (jobs0 : Jobs) :
  alreadyClassified (merged ownerEmail st m) = false -> jobs st = Some jobs0 ->
  no_api_key cfg = false -> owner_of ownerEmail <> "" ->
  let doc := merged ownerEmail st m in
  let result := classifyEmail cfg doc (answer m) in
  let top := if (internalDateMs m >? maxInternalDate st)%Z
             then internalDateMs m else maxInternalDate st in
  store_message cfg ownerEmail st m
  = if truthy result.1 then
      let classified := set_classification result.1 (classifiedAt m) doc in
      {| emails := upsert_email classified (upsert_email doc (emails st));
         jobs := (upsertJobStatus (Some jobs0) (owner_of ownerEmail) result.1
                    (upsert_env m)).2;
         requests := requests st ++ result.2;
         maxInternalDate := top; docs := docs st ++ [classified] |}
    else
      {| emails := upsert_email doc (emails st); jobs := Some jobs0;
         requests := requests st ++ result.2;
         maxInternalDate := top; docs := docs st ++ [doc] |}.
Proof.
  intros Hgate Hjobs Hkey Howner. cbv zeta.
  unfold store_message. fold (merged ownerEmail st m). cbv zeta.
  rewrite Hgate, Hjobs, Hkey. rewrite bool_decide_eq_true_2 by eauto.
  simpl andb. cbv iota. unfold classifyEmailAndUpsert.
  rewrite merged_owner, or_str_empty. fold (owner_of ownerEmail).
  apply blank_false in Howner. rewrite Howner.
  destruct (classifyEmail cfg (merged ownerEmail st m) (answer m))
    as [classification sent]. cbn [fst snd].
  destruct (truthy classification) eqn:Htruthy; cbn [negb]; cbv iota.
  - destruct (upsertJobStatus _ _ _ _) as [outcome jobs']. cbn [snd].
    by rewrite Htruthy.
  - done.
Qed.

Lemma classifyEmail_one_request cfg (emailDoc : GmailEmailDoc) (answer : FetchOutcome) :
  length (classifyEmail cfg emailDoc answer).2 <= 1.
Proof. unfold classifyEmail. destruct (no_api_key cfg); simpl; lia. Qed.

Lemma classifyEmail_asks cfg (emailDoc : GmailEmailDoc) (answer : FetchOutcome) :
  no_api_key cfg = false -> length (classifyEmail cfg emailDoc answer).2 = 1.
Proof. intros Hkey. unfold classifyEmail. by rewrite Hkey. Qed.

Lemma upsertJobStatus_read_fails (jobsContainer : option Jobs) (ownerRaw : string)
    (classification : Json) (env : UpsertEnv) :
  read_fails env = true ->
  (upsertJobStatus jobsContainer ownerRaw classification env).2 = jobsContainer.
Proof.
  intros Hread. unfold upsertJobStatus. destruct jobsContainer as [jobs0|]; [|done].
  destruct (negb (truthy classification)); [done|].
  destruct (string_or_empty _); [|done]. cbv zeta.
  destruct (blank (trim _)); [done|]. destruct (blank (toLowerCase _)); [done|].
  destruct (_ || _ || _); [done|]. by rewrite Hread.
Qed.

Lemma upsert_email_lookup (doc : GmailEmailDoc) (emails : Emails) :
  upsert_email doc emails !! (Email.id doc, Email.owner doc) = Some doc.
Proof. unfold upsert_email. by rewrite lookup_insert_eq. Qed.

(** X15: a message that is not yet classified and that the classifier
    files under an actionable status is stored with that classification
    and its time stamp, costs exactly one request, and raises the matching
    counter of the rollup of its owner and company by one (or adds one
    comment for [comment_only]). *)
Theorem store_message_classifies_and_counts cfg (ownerEmail : string) st m
    (jobs0 : Jobs) c :
  alreadyClassified (merged ownerEmail st m) = false ->
  jobs st = Some jobs0 -> jobs_wf jobs0 -> no_api_key cfg = false ->
  trim (owner_of ownerEmail) <> "" ->
  (classifyEmail cfg (merged ownerEmail st m) (answer m)).1 = to_json c ->
  is_job_related c = true -> actionable (status c) -> trim (company_name c) <> "" ->
  read_fails (upsert_env m) = false ->
  let st' := store_message cfg ownerEmail st m in
  let key := rollup_key (owner_of ownerEmail) c in
  emails st' !! (Gmail.id (data m), ownerEmail)
    = Some (set_classification (to_json c) (classifiedAt m) (merged ownerEmail st m)) /\
  length (requests st') = S (length (requests st)) /\
  exists jobs',
    jobs st' = Some jobs' /\
    Rollups.counter Job.applied jobs' key
      = (Rollups.counter Job.applied jobs0 key
         + if bool_decide (status c = "applied") then 1 else 0)%Z /\
    Rollups.counter Job.rejected jobs' key
      = (Rollups.counter Job.rejected jobs0 key
         + if bool_decide (status c = "rejected") then 1 else 0)%Z /\
    Rollups.counter Job.next_steps jobs' key
      = (Rollups.counter Job.next_steps jobs0 key
         + if bool_decide (status c = "next_steps") then 1 else 0)%Z /\
    Rollups.comment_count jobs' key
      = (Rollups.comment_count jobs0 key
         + if bool_decide (status c = "comment_only") then 1 else 0)%Z.
Proof.
  intros Hgate Hjobs Hwf Hkey Howner Hresult Hjob Hact Hcompany Hread st' key.
  assert (Hnonempty : owner_of ownerEmail <> "").
  { intros Hempty. by rewrite Hempty in Howner. }
  subst st'. rewrite (store_message_open cfg ownerEmail st m jobs0) by done.
  cbv zeta. rewrite Hresult. change (truthy (to_json c)) with true. cbv iota.
  cbn [emails jobs requests].
  split.
  { rewrite <- (merged_id ownerEmail st m) at 1.
    rewrite <- (merged_owner ownerEmail st m) at 2.
    apply (upsert_email_lookup
             (set_classification (to_json c) (classifiedAt m) (merged ownerEmail st m))). }
  split.
  { rewrite length_app, classifyEmail_asks by done. lia. }
  destruct (upsertJobStatus_applies jobs0 (owner_of ownerEmail) c (upsert_env m))
    as (doc & Hcall & Hdoc); try done.
  rewrite Hcall. cbn [snd]. fold key. exists (<[key := doc]> jobs0).
  split; [done|]. unfold Rollups.counter, Rollups.comment_count.
  rewrite !lookup_insert_eq. simpl in Hdoc. unfold rollup_before in Hdoc.
  fold key in Hdoc. rewrite Hdoc. simpl.
  split; [destruct (jobs0 !! key); simpl; lia|].
  split; [destruct (jobs0 !! key); simpl; lia|].
  split; [destruct (jobs0 !! key); simpl; lia|].
  destruct (bool_decide (status c = "comment_only"));
    rewrite ?length_app, upgrade_comments_length;
    destruct (jobs0 !! key); simpl; lia.
Qed.

(** X16: when the rollup cannot be read, the error of the aggregator is
    swallowed: the message is stored with its classification all the same
    and the rollups stay as they were. If the classification has a status,
    a later run that finds the stored message keeps the gate shut, so the
    message is never counted. *)
Theorem classification_survives_aggregator_failure cfg (ownerEmail : string) st m m'
    (jobs0 : Jobs) (classification : Json) :
  alreadyClassified (merged ownerEmail st m) = false ->
  jobs st = Some jobs0 -> no_api_key cfg = false -> owner_of ownerEmail <> "" ->
  (classifyEmail cfg (merged ownerEmail st m) (answer m)).1 = classification ->
  truthy classification = true ->
  read_fails (upsert_env m) = true ->
  Gmail.id (data m') = Gmail.id (data m) -> read_error m' = None ->
  let st1 := store_message cfg ownerEmail st m in
  let st2 := store_message cfg ownerEmail st1 m' in
  (exists doc,
     emails st1 !! (Gmail.id (data m), ownerEmail) = Some doc /\
     Email.classification doc = Some classification /\
     Email.classifiedAt doc = Some (classifiedAt m)) /\
  jobs st1 = Some jobs0 /\
  (truthy_opt (prop "status" classification) = true ->
   jobs st2 = Some jobs0 /\ requests st2 = requests st1).
Proof.
  intros Hgate Hjobs Hkey Howner Hresult Htruthy Hread Hid Hlookup st1 st2.
  pose proof (store_message_open cfg ownerEmail st m jobs0 Hgate Hjobs Hkey Howner)
    as Hst1.
  fold st1 in Hst1. cbv zeta in Hst1. rewrite Hresult, Htruthy in Hst1.
  rewrite upsertJobStatus_read_fails in Hst1 by done.
  set (doc := set_classification classification (classifiedAt m) (merged ownerEmail st m))
    in Hst1.
  assert (Hstored : emails st1 !! (Gmail.id (data m), ownerEmail) = Some doc).
  { rewrite Hst1. cbn [emails].
    rewrite <- (merged_id ownerEmail st m) at 1.
    rewrite <- (merged_owner ownerEmail st m) at 2.
    apply (upsert_email_lookup doc). }
  split; [by exists doc|]. split; [by rewrite Hst1|].
  intros Hstatus.
  assert (Hshut : alreadyClassified (merged ownerEmail st1 m') = true).
  { unfold merged. cbv zeta. rewrite Hlookup.
    change (Email.id (new_doc ownerEmail m')) with (or_str (Gmail.id (data m')) "").
    rewrite or_str_empty, Hid, Hstored. unfold alreadyClassified. simpl.
    unfold opt_prop. destruct classification; try done. }
  subst st2. rewrite store_message_shut by auto. by rewrite Hst1.
Qed.

(** X17: a message whose classification fails is stored without one, so
    the gate is open again at the next run that finds it: the classifier
    is asked once more. *)
Theorem failed_classification_is_retried cfg (ownerEmail : string) st m m'
    (jobs0 : Jobs) :
  alreadyClassified (merged ownerEmail st m) = false ->
  jobs st = Some jobs0 -> no_api_key cfg = false -> owner_of ownerEmail <> "" ->
  truthy (classifyEmail cfg (merged ownerEmail st m) (answer m)).1 = false ->
  Gmail.id (data m') = Gmail.id (data m) -> read_error m' = None ->
  let st1 := store_message cfg ownerEmail st m in
  let st2 := store_message cfg ownerEmail st1 m' in
  jobs st1 = Some jobs0 /\
  length (requests st1) = S (length (requests st)) /\
  length (requests st2) = S (S (length (requests st))).
Proof.
  intros Hgate Hjobs Hkey Howner Hfailed Hid Hlookup st1 st2.
  pose proof (store_message_open cfg ownerEmail st m jobs0 Hgate Hjobs Hkey Howner)
    as Hst1.
  fold st1 in Hst1. cbv zeta in Hst1. rewrite Hfailed in Hst1.
  assert (Hstored : emails st1 !! (Gmail.id (data m), ownerEmail)
                    = Some (merged ownerEmail st m)).
  { rewrite Hst1. cbn [emails].
    rewrite <- (merged_id ownerEmail st m) at 1.
    rewrite <- (merged_owner ownerEmail st m) at 2.
    apply (upsert_email_lookup (merged ownerEmail st m)). }
  assert (Hjobs1 : jobs st1 = Some jobs0) by (by rewrite Hst1).
  assert (Hreq1 : length (requests st1) = S (length (requests st))).
  { rewrite Hst1. cbn [requests]. rewrite length_app, classifyEmail_asks by done. lia. }
  split; [done|]. split; [done|].
  assert (Hopen : alreadyClassified (merged ownerEmail st1 m') = false).
  { unfold merged at 1. cbv zeta. rewrite Hlookup.
    change (Email.id (new_doc ownerEmail m')) with (or_str (Gmail.id (data m')) "").
    by rewrite or_str_empty, Hid, Hstored. }
  pose proof (store_message_open cfg ownerEmail st1 m' jobs0 Hopen Hjobs1 Hkey Howner)
    as Hst2.
  fold st2 in Hst2. cbv zeta in Hst2. rewrite Hst2.
  destruct (truthy (classifyEmail cfg (merged ownerEmail st1 m') (answer m')).1);
    change (length (requests st1
                    ++ (classifyEmail cfg (merged ownerEmail st1 m') (answer m')).2)
            = S (S (length (requests st))));
    rewrite length_app, classifyEmail_asks by done; lia.
Qed.

(** X18: when the read of the stored document fails, whatever the error,
    the message is stored as if it were new: the stored classification is
    overwritten and the gate is open; with the classifier failing (or
    without a key or a rollup container) the message ends up stored
    without any classification. *)
Theorem failed_lookup_drops_classification cfg (ownerEmail : string) st m (code : Z) :
  read_error m = Some code ->
  owner_of ownerEmail <> "" ->
  truthy (classifyEmail cfg (new_doc ownerEmail m) (answer m)).1 = false ->
  let st' := store_message cfg ownerEmail st m in
  emails st' !! (Gmail.id (data m), ownerEmail) = Some (new_doc ownerEmail m) /\
  Email.classification (new_doc ownerEmail m) = None /\
  jobs st' = jobs st.
Proof.
  intros Hread Howner Hfailed st'.
  assert (Hmerged : merged ownerEmail st m = new_doc ownerEmail m).
  { unfold merged. cbv zeta. by rewrite Hread. }
  assert (Hlookup : forall emails0 : Emails,
             upsert_email (new_doc ownerEmail m) emails0 !! (Gmail.id (data m), ownerEmail)
             = Some (new_doc ownerEmail m)).
  { intros emails0. rewrite <- (merged_id ownerEmail st m) at 1.
    rewrite <- (merged_owner ownerEmail st m) at 3. rewrite Hmerged.
    apply upsert_email_lookup. }
  split; [|split; [done|]]; subst st';
    (destruct (jobs st) as [jobs0|] eqn:Hjobs;
       [destruct (no_api_key cfg) eqn:Hkey|]);
    try (rewrite store_message_shut by auto; rewrite ?Hmerged; cbn [emails jobs]; by auto).
  - rewrite (store_message_open cfg ownerEmail st m jobs0) by (by rewrite ?Hmerged).
    cbv zeta. rewrite Hmerged, Hfailed. cbn [emails]. apply Hlookup.
  - rewrite (store_message_open cfg ownerEmail st m jobs0) by (by rewrite ?Hmerged).
    cbv zeta. by rewrite Hmerged, Hfailed.
Qed.

End StoreMessage.

Lemma store_message_classifies_and_counts_witness :
  let st' := store_message (H := Cases.reads_as (to_json Cases.acme_received))
               Samples.config "a@x.com" Cases.empty_state
               (Cases.listed_m1 None (Samples.answer_with "{}") false) in
  length (requests st') = 1 /\
  exists jobs',
    jobs st' = Some jobs' /\
    Rollups.counter Job.applied jobs' ("a@x.com::acme", "a@x.com") = 1%Z.
Proof.
  destruct (store_message_classifies_and_counts
              (H := Cases.reads_as (to_json Cases.acme_received))
              Samples.config "a@x.com" Cases.empty_state
              (Cases.listed_m1 None (Samples.answer_with "{}") false) ∅ Cases.acme_received)
    as (_ & Hsent & jobs' & Hjobs & Happlied & _).
  - reflexivity.
  - reflexivity.
  - intros k doc. rewrite lookup_empty. discriminate.
  - reflexivity.
  - vm_compute. discriminate.
  - reflexivity.
  - reflexivity.
  - unfold actionable. simpl. set_solver.
  - simpl. discriminate.
  - reflexivity.
  - split; [exact Hsent|]. exists jobs'. split; [exact Hjobs|]. exact Happlied.
Defined.

Lemma classification_survives_aggregator_failure_witness :
  let m := Cases.listed_m1 None (Samples.answer_with "{}") true in
  let st1 := store_message (H := Cases.reads_as (to_json Cases.acme_received))
               Samples.config "a@x.com" Cases.empty_state m in
  let st2 := store_message (H := Cases.reads_as (to_json Cases.acme_received))
               Samples.config "a@x.com" st1
               (Cases.listed_m1 None (Samples.answer_with "{}") false) in
  jobs st1 = Some ∅ /\ jobs st2 = Some ∅.
Proof.
  destruct (classification_survives_aggregator_failure
              (H := Cases.reads_as (to_json Cases.acme_received))
              Samples.config "a@x.com" Cases.empty_state
              (Cases.listed_m1 None (Samples.answer_with "{}") true)
              (Cases.listed_m1 None (Samples.answer_with "{}") false)
              ∅ (to_json Cases.acme_received))
    as (_ & Hjobs1 & Hlater).
  - reflexivity.
  - reflexivity.
  - reflexivity.
  - vm_compute. discriminate.
  - reflexivity.
  - reflexivity.
  - reflexivity.
  - reflexivity.
  - reflexivity.
  - split; [exact Hjobs1|]. apply Hlater. reflexivity.
Defined.

Lemma failed_classification_is_retried_witness :
  let m := Cases.listed_m1 None (FetchRejects "fetch failed") false in
  let st1 := store_message (H := Samples.sample_runtime) Samples.config "a@x.com"
               Cases.empty_state m in
  length (requests (store_message (H := Samples.sample_runtime) Samples.config "a@x.com"
                      st1 m)) = 2.
Proof.
  apply (failed_classification_is_retried (H := Samples.sample_runtime) Samples.config
           "a@x.com" Cases.empty_state
           (Cases.listed_m1 None (FetchRejects "fetch failed") false)
           (Cases.listed_m1 None (FetchRejects "fetch failed") false) ∅).
  - reflexivity.
  - reflexivity.
  - reflexivity.
  - vm_compute. discriminate.
  - reflexivity.
  - reflexivity.
  - reflexivity.
Defined.

Lemma failed_lookup_drops_classification_witness :
  let m := Cases.listed_m1 (Some 500%Z) (FetchRejects "fetch failed") false in
  let st' := store_message (H := Samples.sample_runtime) Samples.config "a@x.com"
               Samples.state_with_m1 m in
  (Email.classification <$> emails Samples.state_with_m1 !! ("m1", "a@x.com"))
    = Some (Email.classification Samples.stored_m1) /\
  (Email.classification <$> emails st' !! ("m1", "a@x.com")) = Some None.
Proof.
  split; [vm_compute; reflexivity|].
  destruct (failed_lookup_drops_classification (H := Samples.sample_runtime) Samples.config
              "a@x.com" Samples.state_with_m1
              (Cases.listed_m1 (Some 500%Z) (FetchRejects "fetch failed") false) 500%Z)
    as (Hstored & Hnone & _).
  - reflexivity.
  - vm_compute. discriminate.
  - reflexivity.
  - cbv zeta. change (Gmail.id (data (Cases.listed_m1 (Some 500%Z)
                                        (FetchRejects "fetch failed") false)))
      with "m1" in Hstored.
    rewrite Hstored. reflexivity.
Defined.

(** ** More on whole runs *)




Section Runs.
Context `{Runtime}.

Implicit Types (cfg : Config) (st : SyncState) (m : Observed) (listing : Listing).




Lemma store_message_requests cfg (ownerEmail : string) st m :
  length (requests (store_message cfg ownerEmail st m)) <= S (length (requests st)).
Proof.
  unfold store_message. fold (merged ownerEmail st m). cbv zeta.
  destruct (_ && _ && _); [|simpl; lia].
  assert (Hsent : length (classifyEmailAndUpsert cfg (merged ownerEmail st m) (jobs st)
                            (answer m) (upsert_env m)).2 <= 1).
  { unfold classifyEmailAndUpsert. destruct (jobs st); [|simpl; lia].
    destruct (blank _); [simpl; lia|].
    pose proof (classifyEmail_one_request cfg (merged ownerEmail st m) (answer m)) as Hone.
    destruct (classifyEmail _ _ _) as [classification sent].
    destruct (negb (truthy classification)); [exact Hone|].
    destruct (upsertJobStatus _ _ _ _). exact Hone. }
  destruct (classifyEmailAndUpsert _ _ _ _ _) as [[classification jobs'] sent].
  cbn [snd] in Hsent.
  destruct (truthy classification); cbn [requests]; rewrite length_app; lia.
Qed.

Lemma foldl_store_requests cfg (ownerEmail : string) (messages : list Observed) st :
  length (requests (foldl (store_message cfg ownerEmail) st messages))
  <= length (requests st) + length messages.
Proof.
  revert st. induction messages as [|m messages IH]; intros st; simpl; [lia|].
  pose proof (IH (store_message cfg ownerEmail st m)) as Hrest.
  pose proof (store_message_requests cfg ownerEmail st m) as Hone. lia.
Qed.

Lemma paginate_requests cfg (ownerEmail : string) listing st :
  length (requests (paginate cfg ownerEmail listing st))
  <= length (requests st) + length (listed listing).
Proof.
  revert st. induction listing as [messages|messages token rest IH]; intros st; simpl.
  - apply foldl_store_requests.
  - destruct (blank token); [apply foldl_store_requests|].
    pose proof (IH (foldl (store_message cfg ownerEmail) st messages)) as Hrest.
    pose proof (foldl_store_requests cfg ownerEmail messages st) as Hfirst.
    rewrite length_app. lia.
Qed.



(** X21: a run sends at most one request to the classifier per listed
    message, whatever the endpoint answers. *)
Theorem one_request_per_message_at_most cfg (emailContainer : option Emails)
    (oauthClient : bool) (jobsContainer : option Jobs) (ownerRaw : string)
    (options : Options) (env : RunEnv) (vault : StateStore.Vault) :
  let ownerEmail := toLowerCase (trim ownerRaw) in
  let cursor := if blank (queryOverride options) then stored_cursor vault ownerEmail
                else None in
  let messages := listed (listing env (gmailQuery options cursor)) in
  let run := fetchAndStoreGmailEmails cfg emailContainer oauthClient jobsContainer
               ownerRaw options env vault in
  length (w_requests run.2) <= length messages.
Proof.
  intros ownerEmail cursor messages.
  unfold fetchAndStoreGmailEmails. cbv zeta. rewrite or_str_empty.
  fold ownerEmail. destruct (blank ownerEmail); [simpl; lia|].
  destruct emailContainer as [emails0|]; [|simpl; lia].
  destruct (negb oauthClient && negb (savedTokens env)); [simpl; lia|].
  fold cursor.
  set (start := {| emails := emails0; jobs := jobsContainer; requests := [];
                   maxInternalDate := default 0%Z cursor; docs := [] |}).
  pose proof (paginate_requests cfg ownerEmail (listing env (gmailQuery options cursor))
                start) as Hsent.
  fold messages in Hsent. simpl in Hsent.
  by destruct (docs _).
Qed.

Lemma store_message_silent cfg (ownerEmail : string) (before : Emails) st0 st m :
  jobs st0 = None \/ no_api_key cfg = true ->
  quiet before st0 st -> quiet before st0 (store_message cfg ownerEmail st m).
Proof.
  intros Hshut (Hjobs & Hreq & Hkept).
  rewrite store_message_shut by (rewrite Hjobs; tauto).
  split; [done|]. split; [done|]. simpl.
  intros k doc. unfold upsert_email. rewrite merged_key, lookup_insert.
  case_decide as Hk; [|apply Hkept].
  intros [= <-]. destruct (merged_classification ownerEmail st m)
    as [Hnone|(existing & Hstored & Hsame)]; [by left|].
  rewrite <- Hsame. subst k. destruct (Hkept _ _ Hstored) as [Hn|Hold]; [by left|by right].
Qed.

Lemma paginate_silent cfg (ownerEmail : string) (before : Emails) st0 listing st :
  jobs st0 = None \/ no_api_key cfg = true ->
  quiet before st0 st -> quiet before st0 (paginate cfg ownerEmail listing st).
Proof.
  intros Hshut.
  assert (Hfold : forall messages st1, quiet before st0 st1 ->
            quiet before st0 (foldl (store_message cfg ownerEmail) st1 messages)).
  { induction messages as [|m messages IH]; intros st1 Hq; [done|].
    simpl. apply IH. by apply store_message_silent. }
  revert st. induction listing as [messages|messages token rest IH]; intros st Hq; simpl.
  - by apply Hfold.
  - destruct (blank token); [by apply Hfold|]. apply IH. by apply Hfold.
Qed.

(** X22: without a rollup container a run classifies nothing: it sends
    no request and no stored message carries a classification that it did
    not carry before the run. *)
Theorem no_jobs_container_no_classification cfg (emailContainer : option Emails)
    (oauthClient : bool) (ownerRaw : string) (options : Options) (env : RunEnv)
    (vault : StateStore.Vault) :
  let run := fetchAndStoreGmailEmails cfg emailContainer oauthClient None
               ownerRaw options env vault in
  w_requests run.2 = [] /\ w_jobs run.2 = None /\
  (forall before after, emailContainer = Some before -> w_emails run.2 = Some after ->
     no_new_classification before after).
Proof.
  assert (Hrefl : forall before : Emails, no_new_classification before before).
  { intros before k doc Hdoc. right. eauto. }
  unfold fetchAndStoreGmailEmails. cbv zeta.
  destruct (blank _); [by split; [|split; [|intros ? ? -> [= <-]]]|].
  destruct emailContainer as [emails0|]; [|by split; [|split]].
  destruct (negb oauthClient && negb (savedTokens env));
    [by split; [|split; [|intros ? ? [= <-] [= <-]]]|].
  match goal with
  | |- context [paginate cfg ?o ?l ?s] =>
      destruct (paginate_silent cfg o emails0 s l s) as (Hjobs & Hreq & Hkept);
        [by left|by split; [|split; [|apply Hrefl]]|];
        set (final := paginate cfg o l s) in *
  end.
  simpl in Hjobs, Hreq.
  destruct (docs final); cbn [snd w_requests w_jobs w_emails];
    (split; [done|]; split; [done|]; by intros ? ? [= <-] [= <-]).
Qed.

End Runs.



(** ** The scheduled sweep *)

Section Sweep.
Context `{Runtime}.

Import Schedule.

(** A run with a query override, or told to skip the state update, leaves
    the cursors alone. *)
Lemma run_keeps_vault (cfg : Config) (emailContainer : option Emails) (oauthClient : bool)
    (jobsContainer : option Jobs) (ownerRaw : string) (options : Options) (env : RunEnv)
    (vault : StateStore.Vault) :
  skipStateUpdate options = true \/ blank (queryOverride options) = false ->
  w_vault (fetchAndStoreGmailEmails cfg emailContainer oauthClient jobsContainer
             ownerRaw options env vault).2 = vault.
Proof.
  intros Hskip. unfold fetchAndStoreGmailEmails. cbv zeta.
  destruct (blank (toLowerCase _)); [done|].
  destruct emailContainer as [emails0|]; [|done].
  destruct (negb oauthClient && negb (savedTokens env)); [done|].
  destruct (docs _); [done|]. cbn [snd w_vault].
  destruct Hskip as [-> | ->]; [by rewrite andb_false_r|done].
Qed.

(** X23: the scheduled sweep never moves a cursor, whatever it fetches
    and for however many owners. *)
Theorem scheduledFetch_keeps_cursors (cfg : Config) (env : SweepEnv) (w : World) :
  w_vault (scheduledFetch cfg env w) = w_vault w.
Proof.
  unfold scheduledFetch. revert w.
  induction (owners env) as [|owner rest IH]; intros w; [done|].
  simpl. rewrite IH. unfold sweep_owner. cbn [w_vault].
  apply run_keeps_vault. by left.
Qed.

Lemma sweep_owner_unconnected (cfg : Config) (env : SweepEnv) (w : World)
    (owner : string) :
  connected env owner = false -> sweep_owner cfg env w owner = w.
Proof.
  intros Hconnected. unfold sweep_owner, fetchAndStoreGmailEmails. cbv zeta.
  rewrite or_str_empty. unfold connected in Hconnected.
  destruct w as [emails0 jobs0 vault0 requests0]. cbn [w_emails w_jobs w_vault w_requests].
  destruct (blank (toLowerCase (trim owner))); [by rewrite app_nil_r|].
  destruct emails0 as [emails0|]; [|by rewrite app_nil_r].
  simpl in Hconnected. rewrite Hconnected. simpl. by rewrite app_nil_r.
Qed.

(** X24: an owner whose address is blank or whose tokens are missing is
    skipped by the sweep: the error of that run is caught, nothing is
    touched for it, and the owners after it are still processed. The
    sweep is the sweep over the connected owners. *)
Theorem scheduledFetch_skips_unconnected (cfg : Config) (env : SweepEnv) (w : World) :
  scheduledFetch cfg env w
  = foldl (sweep_owner cfg env) w (filter (fun owner => connected env owner) (owners env)).
Proof.
  unfold scheduledFetch. revert w.
  induction (owners env) as [|owner rest IH]; intros w; [done|].
  destruct (connected env owner) eqn:Hconnected.
  - rewrite filter_cons_True by (cbv beta; by rewrite Hconnected). simpl. apply IH.
  - rewrite filter_cons_False by (cbv beta; rewrite Hconnected; tauto). simpl.
    rewrite sweep_owner_unconnected by done. apply IH.
Qed.

End Sweep.

(** ** The body of a message *)

Section Body.
Context `{Runtime}.

(** X25: in a multipart message the first sub-part that yields text gives
    the body: the sub-parts before it that yield nothing are passed over,
    the sub-parts after it and the data of the part itself are not
    looked at. *)
Theorem extractMessageBody_first_text (mimeType : string) (headers : list Header)
    (data : string) (before after : list Gmail.Part) (part : Gmail.Part) :
  Forall (fun q => extractMessageBody q = "") before ->
  extractMessageBody part <> "" ->
  extractMessageBody (Gmail.MkPart mimeType headers data (before ++ part :: after))
  = extractMessageBody part.
Proof.
  intros Hbefore Hpart. simpl.
  set (first_text := fix first_text (subparts : list Gmail.Part) : string :=
         match subparts with
         | [] => ""
         | subpart :: rest =>
             if blank (extractMessageBody subpart) then first_text rest
             else extractMessageBody subpart
         end).
  apply blank_false in Hpart.
  assert (Hfirst : first_text (before ++ part :: after) = extractMessageBody part).
  { induction Hbefore as [|q before Hq Hbefore IH]; simpl.
    - by rewrite Hpart.
    - by rewrite Hq. }
  by rewrite Hfirst, Hpart.
Qed.

(** X26: a part whose sub-parts yield no text is read like a part
    without sub-parts: its own data is decoded, and converted from HTML
    exactly when its MIME type contains "html"; without data the body is
    empty. *)
Theorem extractMessageBody_own_data (mimeType : string) (headers : list Header)
    (data : string) (parts : list Gmail.Part) :
  Forall (fun q => extractMessageBody q = "") parts ->
  extractMessageBody (Gmail.MkPart mimeType headers data parts)
  = if blank data then ""
    else if includes "html" mimeType then htmlToText (decodeBodyData data)
    else decodeBodyData data.
Proof.
  intros Hparts. simpl.
  set (first_text := fix first_text (subparts : list Gmail.Part) : string :=
         match subparts with
         | [] => ""
         | subpart :: rest =>
             if blank (extractMessageBody subpart) then first_text rest
             else extractMessageBody subpart
         end).
  assert (Hnone : first_text parts = "").
  { induction Hparts as [|q parts Hq Hparts IH]; simpl; [done|by rewrite Hq]. }
  rewrite Hnone. simpl. by destruct (blank data).
Qed.

End Body.

Lemma extractMessageBody_first_text_witness :
  extractMessageBody (H := Samples.sample_runtime)
    (Gmail.MkPart "multipart/alternative" [] ""
       ([Cases.empty_part] ++ Cases.plain_part :: [Cases.html_part]))
  = "aGVsbG8".
Proof.
  apply (extractMessageBody_first_text (H := Samples.sample_runtime)
           "multipart/alternative" [] "" [Cases.empty_part] [Cases.html_part]
           Cases.plain_part).
  - apply Forall_cons_2; [reflexivity|apply Forall_nil_2].
  - simpl. discriminate.
Defined.

Lemma extractMessageBody_own_data_witness :
  extractMessageBody (H := Samples.sample_runtime)
    (Gmail.MkPart "text/html" [] "PGI-" [Cases.empty_part]) = "PGI+".
Proof.
  apply (extractMessageBody_own_data (H := Samples.sample_runtime)
           "text/html" [] "PGI-" [Cases.empty_part]).
  apply Forall_cons_2; [reflexivity|apply Forall_nil_2].
Defined.

(** ** The stores of cursors and tokens *)

Section Stores.

Lemma secretName_inj (a b : string) :
  StateStore.secretName a = StateStore.secretName b <-> StateStore.slugify a = StateStore.slugify b.
Proof.
  unfold StateStore.secretName. split; [|by intros ->].
  intros Hname. by simplify_eq/=.
Qed.

(** X27: the cursor of an owner lives in the secret named after the slug
    of the address (an empty address is refused), so two addresses with
    one slug (they differ only in
    letter case or in characters that are not letters or digits) share
    one cursor: what is saved for one is loaded for the other, merged
    over what was stored. Addresses with different slugs do not
    interfere. *)
Theorem saveState_then_loadState (vault : StateStore.Vault) (ownerEmail other : string)
    (partial : StateStore.GmailState) :
  ownerEmail <> "" -> other <> "" ->
  StateStore.loadState (StateStore.saveState vault ownerEmail partial) other
  = if decide (StateStore.slugify other = StateStore.slugify ownerEmail)
    then Some (StateStore.merge
                 (default {| StateStore.lastInternalDateMs := None |}
                          (StateStore.loadState vault other)) partial)
    else StateStore.loadState vault other.
Proof.
  intros _ _. unfold StateStore.saveState, StateStore.loadState.
  destruct (decide (StateStore.slugify other = StateStore.slugify ownerEmail)) as [Hslug|Hslug].
  - apply secretName_inj in Hslug. rewrite Hslug. by rewrite lookup_insert_eq.
  - rewrite lookup_insert_ne; [done|]. intros Hname. by apply Hslug, secretName_inj.
Qed.

Lemma saveState_then_loadState_witness :
  StateStore.loadState
    (StateStore.saveState ∅ "a.b@x.com" {| StateStore.lastInternalDateMs := Some 5%Z |})
    "A-B@x.com"
  = Some {| StateStore.lastInternalDateMs := Some 5%Z |}.
Proof.
  rewrite (saveState_then_loadState ∅ "a.b@x.com" "A-B@x.com"
             {| StateStore.lastInternalDateMs := Some 5%Z |}).
  - reflexivity.
  - discriminate.
  - discriminate.
Defined.

Lemma lower_char_plain (c : ascii) :
  StateStore.alphanumeric c = true ->
  StateStore.alphanumeric (lower_char c) = true /\ upper_case (lower_char c) = false.
Proof.
  destruct c as [[] [] [] [] [] [] [] []]; vm_compute; (discriminate || by split).
Qed.

(** X28: the slug of an address that is not empty has as many
    characters as the address,
    and each of them is a dash, a digit or a lower-case letter, so the
    name of the secret only has characters a vault accepts. *)
Theorem slugify_charset (ownerEmail : string) (c : ascii) :
  ownerEmail <> "" ->
  String.length (StateStore.slugify ownerEmail) = String.length ownerEmail /\
  (Text.occurs c (StateStore.slugify ownerEmail) = true ->
   c = "-"%char \/ (StateStore.alphanumeric c = true /\ upper_case c = false)).
Proof.
  intros _. induction ownerEmail as [|a rest [IHlen IHchars]]; simpl; [by split|].
  split; [by rewrite IHlen|].
  destruct (StateStore.alphanumeric a) eqn:Halnum.
  - case_decide as Hc; simpl; [|by auto].
    intros _. right. subst c. by apply lower_char_plain.
  - case_decide as Hc; simpl; [|by auto]. intros _. by left.
Qed.

Lemma slugify_charset_witness :
  String.length (StateStore.slugify "Ada.L@x.com") = String.length "Ada.L@x.com" /\
  (Text.occurs "-" (StateStore.slugify "Ada.L@x.com") = true ->
   "-"%char = "-"%char \/
   (StateStore.alphanumeric "-" = true /\ upper_case "-" = false)).
Proof. apply (slugify_charset "Ada.L@x.com" "-"%char). discriminate. Defined.

Import UserStore.

Lemma normalizeOwner_pk (ownerEmail pk : string) :
  normalizeOwner ownerEmail = Some pk -> ownerEmail <> "" /\ pk = toLowerCase (trim ownerEmail).
Proof.
  unfold normalizeOwner. destruct (blank ownerEmail) eqn:Hblank; [discriminate|].
  intros [= <-]. split; [by apply blank_false|done].
Qed.

(** X29: tokens and sync state live in one document per owner, and the
    two stores do not clobber each other: saving tokens leaves the state
    of every owner as it was, and saving state leaves the tokens of every
    owner as they were. *)
Theorem stores_share_the_user_document (users users' : Users) (ownerEmail other : string)
    (newTokens merged : Tokens) (partial nextState : StateStore.GmailState) :
  (saveTokens (Some users) ownerEmail newTokens false = inr (merged, users') ->
   UserStore.loadState (Some users') other false
   = UserStore.loadState (Some users) other false) /\
  (UserStore.saveState (Some users) ownerEmail partial false = inr (nextState, users') ->
   loadTokens (Some users') other false = loadTokens (Some users) other false).
Proof.
  unfold saveTokens, UserStore.saveState, UserStore.loadState, loadTokens, open_doc.
  split.
  - destruct (normalizeOwner ownerEmail) as [pk|]; [|discriminate].
    cbv zeta. intros [= _ <-].
    destruct (normalizeOwner other) as [pk'|]; [|done]. f_equal.
    destruct (decide (pk' = pk)) as [->|Hpk].
    + by rewrite lookup_insert_eq.
    + rewrite lookup_insert_ne; [done|]. congruence.
  - destruct (normalizeOwner ownerEmail) as [pk|]; [|discriminate].
    cbv zeta. intros [= _ <-].
    destruct (normalizeOwner other) as [pk'|]; [|done]. f_equal.
    destruct (decide (pk' = pk)) as [->|Hpk].
    + by rewrite lookup_insert_eq.
    + rewrite lookup_insert_ne; [done|]. congruence.
Qed.

Lemma stores_share_the_user_document_witness :
  exists (merged : Tokens) (users' : Users),
    saveTokens (Some Cases.ada_users) "ada@x.com" Cases.refreshed false
      = inr (merged, users') /\
    UserStore.loadState (Some users') "Ada@x.com" false
    = inr (Some {| StateStore.lastInternalDateMs := Some 100000%Z |}).
Proof.
  eexists _, _. split; [reflexivity|].
  etransitivity; [|reflexivity].
  eapply (proj1 (stores_share_the_user_document Cases.ada_users _ "ada@x.com" "Ada@x.com"
                  Cases.refreshed _ {| StateStore.lastInternalDateMs := None |}
                  {| StateStore.lastInternalDateMs := None |})).
  reflexivity.
Defined.

(** X30: saving tokens merges them over the stored ones: a field that
    the new tokens carry takes the new value, every other stored field is
    kept (a refresh that only brings an access token does not lose the
    refresh token); loading with any spelling of the owner that
    normalizes to the same address returns the merged tokens. *)
Theorem saveTokens_then_loadTokens (users : Users) (ownerEmail other : string)
    (newTokens : Tokens) :
  ownerEmail <> "" -> other <> "" ->
  toLowerCase (trim other) = toLowerCase (trim ownerEmail) ->
  exists (merged : Tokens) (users' : Users),
    saveTokens (Some users) ownerEmail newTokens false = inr (merged, users') /\
    loadTokens (Some users') other false = inr (Some merged) /\
    forall field,
      merged !! field
      = match newTokens !! field with
        | Some v => Some v
        | None =>
            match loadTokens (Some users) ownerEmail false with
            | inr (Some stored) => stored !! field
            | _ => None
            end
        end.
Proof.
  intros Howner Hother Hsame.
  unfold saveTokens, loadTokens, open_doc, normalizeOwner.
  apply blank_false in Howner, Hother. rewrite Howner, Hother, Hsame. cbv zeta.
  eexists _, _. split; [reflexivity|]. split; [by rewrite lookup_insert_eq|].
  intros field. rewrite lookup_union.
  destruct (newTokens !! field) as [v|]; [by destruct (_ !! field)|].
  rewrite (left_id_L None _).
  destruct (users !! _) as [doc|]; simpl; [|done].
  by destruct (gmailTokens doc).
Qed.

Lemma saveTokens_then_loadTokens_witness :
  exists (merged : Tokens) (users' : Users),
    saveTokens (Some Cases.ada_users) "Ada@x.com" Cases.refreshed false
      = inr (merged, users') /\
    loadTokens (Some users') " ada@x.com" false = inr (Some merged) /\
    merged !! "refresh_token" = Some (JStr "rt-1") /\
    merged !! "access_token" = Some (JStr "at-2").
Proof.
  destruct (saveTokens_then_loadTokens Cases.ada_users "Ada@x.com" " ada@x.com"
              Cases.refreshed) as (merged & users' & Hsave & Hload & Hfields).
  - discriminate.
  - discriminate.
  - reflexivity.
  - exists merged, users'. split; [exact Hsave|]. split; [exact Hload|].
    split; rewrite Hfields; reflexivity.
Defined.

End Stores.
